(** * Eltako device discovery: the configuration accumulator [HaConfig]

    A shallow embedding of [eltakodevice_discovery/ymalRepresentation.py]:
    the static profile table [EEP_MAPPING], the organization table
    [ORG_MAPPING], the address formatter, the heuristic classifier and the
    two entry points [add_device] and [add_sensor] of the accumulator.

    Python integers are [Z], [bytes] values are [list byte], [str] values are
    [string], dictionaries are association lists in insertion order, and the
    mutable accumulator object is threaded through a small state-and-exception
    monad. *)

From Stdlib Require Import ZArith List Bool Lia.
From Stdlib.Strings Require Import String Ascii Byte.
From Stdlib Require Import DecimalString Permutation.
Import ListNotations.

Local Open Scope string_scope.
Local Open Scope Z_scope.

(** ** Python dictionaries as insertion-ordered association lists *)

Module Dict.

Section WithValues.
Context {V : Type}.

Definition t := list (string * V).

(** [d[k]] / [d.get(k)]: the value stored under [k], if any. *)
Fixpoint get (k : string) (d : t) : option V :=
  match d with
  | [] => None
  | (k', v) :: d' => if String.eqb k' k then Some v else get k d'
  end.

(** [k in d]. *)
Definition mem (k : string) (d : t) : bool :=
  match get k d with Some _ => true | None => false end.

(** [d[k] = v]: overwrite in place, or append a new key at the end. *)
Fixpoint set (k : string) (v : V) (d : t) : t :=
  match d with
  | [] => [(k, v)]
  | (k', v') :: d' =>
      if String.eqb k' k then (k', v) :: d' else (k', v') :: set k v d'
  end.

(** [d.values()], in insertion order. *)
Definition values (d : t) : list V := map snd d.

End WithValues.

Arguments t : clear implicits.

End Dict.

(** ** String formatting primitives *)

(** The digit characters of ["%x"]. *)
Definition hex_alphabet : list ascii :=
  list_ascii_of_string "0123456789abcdef".

Definition hex_digit (n : Z) : ascii :=
  nth (Z.to_nat n) hex_alphabet "0"%char.

(** Most significant digit first, accumulated from the least significant
    one; [fuel] bounds the number of digits. *)
Fixpoint hex_digits_aux (fuel : nat) (n : Z) (acc : list ascii) : list ascii :=
  match fuel with
  | O => acc
  | S fuel' =>
      if n <? 16 then hex_digit n :: acc
      else hex_digits_aux fuel' (n / 16) (hex_digit (n mod 16) :: acc)
  end.

(** The hexadecimal digits of a natural number, without leading zeros
    (["0"] for zero). A number has no more hex digits than bits. *)
Definition hex_digits (n : Z) : list ascii :=
  hex_digits_aux (S (Z.to_nat (Z.log2 n))) n [].

(** Zero padding on the left up to [width] characters. *)
Definition zfill (width : nat) (ds : list ascii) : list ascii :=
  (repeat "0"%char (width - List.length ds) ++ ds)%list.

(** [f"{z:08x}"]: sign-aware zero padding to a total width of eight. *)
Definition format_08x (z : Z) : string :=
  string_of_list_ascii
    (if z <? 0 then "-"%char :: zfill 7 (hex_digits (Z.abs z))
     else zfill 8 (hex_digits z)).

(** [str.upper] on one ASCII character. *)
Definition ascii_upper (c : ascii) : ascii :=
  if (("a" <=? c) && (c <=? "z"))%char
  then ascii_of_nat (nat_of_ascii c - 32)%nat else c.

Fixpoint upper (s : string) : string :=
  match s with
  | EmptyString => EmptyString
  | String c s' => String (ascii_upper c) (upper s')
  end.

(** [s.replace(old, new)] for single characters. *)
Fixpoint replace_char (old new : ascii) (s : string) : string :=
  match s with
  | EmptyString => EmptyString
  | String c s' =>
      String (if Ascii.eqb c old then new else c) (replace_char old new s')
  end.

(** [s[i:j]] for [0 <= i <= j]; slices clamp at the end of the string. *)
Definition slice (i j : nat) (s : string) : string := substring i (j - i)%nat s.

(** [str(z)] for an integer. *)
Definition str_of_int (z : Z) : string := NilZero.string_of_int (Z.to_int z).

(** [sep.join(parts)]. *)
Fixpoint join (sep : string) (parts : list string) : string :=
  match parts with
  | [] => ""
  | [p] => p
  | p :: rest => p ++ sep ++ join sep rest
  end.

(** ** [HaConfig.get_formatted_address] *)

Definition get_formatted_address (address : Z) : string :=
  let a := upper (format_08x address) in
  slice 0 2 a ++ "-" ++ slice 2 4 a ++ "-" ++ slice 4 6 a ++ "-" ++ slice 6 8 a.

(** The shape of a formatted address: four octets of two upper-case
    hexadecimal digits, separated by hyphens. *)
Definition is_upper_hex (c : ascii) : bool :=
  ((("0" <=? c) && (c <=? "9")) || (("A" <=? c) && (c <=? "F")))%char.

Definition is_octet_address (s : string) : bool :=
  match list_ascii_of_string s with
  | [a1; a0; h1; b1; b0; h2; c1; c0; h3; d1; d0] =>
      forallb is_upper_hex [a1; a0; b1; b0; c1; c0; d1; d0]
      && forallb (Ascii.eqb "-") [h1; h2; h3]
  | _ => false
  end.

(** ** Bytes *)

Definition byte_val (b : byte) : Z := Z.of_N (Byte.to_N b).

(** [sum(bs)] over a [bytes] value. *)
Definition sum_bytes (bs : list byte) : Z :=
  fold_right (fun b acc => byte_val b + acc) 0 bs.

(** [v.to_bytes(2, 'big')]; [None] stands for the [OverflowError] of a value
    that does not fit in two bytes. *)
Definition to_bytes_2_big (v : Z) : option (list byte) :=
  if (0 <=? v) && (v <? 65536) then
    match Byte.of_N (Z.to_N (v / 256)), Byte.of_N (Z.to_N (v mod 256)) with
    | Some hi, Some lo => Some [hi; lo]
    | _, _ => None
    end
  else None.

(** [a == b], [a < b] and [a <= b] on [bytes]: lexicographic, a proper
    prefix is smaller. *)
Fixpoint bytes_eqb (a b : list byte) : bool :=
  match a, b with
  | [], [] => true
  | x :: a', y :: b' => Byte.eqb x y && bytes_eqb a' b'
  | _, _ => false
  end.

Fixpoint bytes_ltb (a b : list byte) : bool :=
  match a, b with
  | _, [] => false
  | [], _ :: _ => true
  | x :: a', y :: b' =>
      (byte_val x <? byte_val y)
      || ((byte_val x =? byte_val y) && bytes_ltb a' b')
  end.

Definition bytes_leb (a b : list byte) : bool := negb (bytes_ltb b a).

(** The big-endian number a [bytes] value spells. *)
Definition be_value (bs : list byte) : Z :=
  fold_left (fun acc b => acc * 256 + byte_val b) bs 0.

(** ["%02x" % b] for one byte. *)
Definition byte_hex (b : byte) : string :=
  string_of_list_ascii (zfill 2 (hex_digits (byte_val b))).

(** Modelled from the spec: [eltakobus.util.b2a], a helper of the bus library
    that is not part of this repository's sources. Section 3 of the
    specification fixes the result for a source address: the octets in
    hexadecimal, two digits each, joined by the separator (a blank, which
    [add_sensor] then turns into a hyphen). *)
Definition b2a (rawdata : list byte) : string :=
  join " " (map byte_hex rawdata).

(** ** The static tables *)

(** One entry of [EEP_MAPPING]; the key ['sender_eep'] is optional. *)
Record device_info := {
  hw_type : string;
  eep : string;
  sender_eep : option string;
  type : string;
  description : string;
  address_count : Z
}.

Definition sensor_entry (hw e ty descr : string) : device_info :=
  {| hw_type := hw; eep := e; sender_eep := None; type := ty;
     description := descr; address_count := 1 |}.

Definition actuator_entry (hw e se ty descr : string) (n : Z) : device_info :=
  {| hw_type := hw; eep := e; sender_eep := Some se; type := ty;
     description := descr; address_count := n |}.

Definition EEP_MAPPING : list device_info := [
  sensor_entry "FTS14EM" "F6-02-01" "binary_sensor" "Rocker switch";
  sensor_entry "FTS14EM" "F6-02-02" "binary_sensor" "Rocker switch";
  sensor_entry "FTS14EM" "F6-10-00" "binary_sensor" "Window handle";
  sensor_entry "FTS14EM" "D5-00-01" "binary_sensor" "Contact sensor";
  sensor_entry "FTS14EM" "A5-08-01" "binary_sensor" "Occupancy sensor";

  sensor_entry "FWG14" "A5-13-01" "sensor" "Weather station";
  sensor_entry "FTS14EM" "A5-12-01" "sensor" "Window handle";
  sensor_entry "FSDG14" "A5-12-02" "sensor"
               "Automated meter reading - electricity";
  sensor_entry "F3Z14D" "A5-13-01" "sensor" "Automated meter reading - gas";
  sensor_entry "F3Z14D" "A5-12-03" "sensor" "Automated meter reading - water";

  actuator_entry "FUD14" "A5-38-08" "A5-38-08" "light"
                 "Central command - gateway" 1;
  actuator_entry "FSR14_1x" "M5-38-08" "A5-38-08" "light" "Eltako relay" 1;
  actuator_entry "FSR14_x2" "M5-38-08" "A5-38-08" "light" "Eltako relay" 2;
  actuator_entry "FSR14_4x" "M5-38-08" "A5-38-08" "light" "Eltako relay" 4;

  actuator_entry "FSR14_1x" "M5-38-08" "A5-38-08" "switch" "Eltako relay" 1;
  actuator_entry "FSR14_x2" "M5-38-08" "A5-38-08" "switch" "Eltako relay" 2;
  actuator_entry "FSR14_4x" "M5-38-08" "A5-38-08" "switch" "Eltako relay" 4;

  actuator_entry "FSB14" "G5-3F-7F" "H5-3F-7F" "cover" "Eltako cover" 1
]%list.

(** One value of [ORG_MAPPING]. *)
Record org_info := {
  org_Telegram : string;
  org_RORG : string;
  org_name : string;
  org_type : string;
  org_eep : string
}.

Definition ORG_MAPPING : list (Z * org_info) := [
  (5, {| org_Telegram := "RPS"; org_RORG := "F6"; org_name := "Switch";
         org_type := "binary_sensor"; org_eep := "F6-02-01" |});
  (6, {| org_Telegram := "1BS"; org_RORG := "D5";
         org_name := "1 Byte Communication";
         org_type := "sensor"; org_eep := "D5-??-??" |});
  (7, {| org_Telegram := "4BS"; org_RORG := "A5";
         org_name := "4 Byte Communication";
         org_type := "sensor"; org_eep := "A5-??-??" |})
]%list.

(** ** Telegrams and bus objects (the typed boundary to the bus library) *)

(** The classes a received message can be an instance of. *)
Inductive msg_type :=
| EltakoWrappedRPS
| EltakoWrapped4BS
| RPSMessage
| Regular4BSMessage
| Regular1BSMessage
| EltakoMessage
| EltakoDiscoveryRequest
| OtherMessage (class_name : string).

(** [type(msg).__name__]. *)
Definition msg_type_name (t : msg_type) : string :=
  match t with
  | EltakoWrappedRPS => "EltakoWrappedRPS"
  | EltakoWrapped4BS => "EltakoWrapped4BS"
  | RPSMessage => "RPSMessage"
  | Regular4BSMessage => "Regular4BSMessage"
  | Regular1BSMessage => "Regular1BSMessage"
  | EltakoMessage => "EltakoMessage"
  | EltakoDiscoveryRequest => "EltakoDiscoveryRequest"
  | OtherMessage n => n
  end.

(** Identity of classes. *)
Definition msg_type_eqb (a b : msg_type) : bool :=
  match a, b with
  | EltakoWrappedRPS, EltakoWrappedRPS
  | EltakoWrapped4BS, EltakoWrapped4BS
  | RPSMessage, RPSMessage
  | Regular4BSMessage, Regular4BSMessage
  | Regular1BSMessage, Regular1BSMessage
  | EltakoMessage, EltakoMessage
  | EltakoDiscoveryRequest, EltakoDiscoveryRequest => true
  | OtherMessage n, OtherMessage m => String.eqb n m
  | _, _ => false
  end.

Definition SENSOR_MESSAGE_TYPES : list msg_type :=
  [EltakoWrappedRPS; EltakoWrapped4BS; RPSMessage; Regular4BSMessage;
   Regular1BSMessage; EltakoMessage]%list.

(** A telegram as the accumulator reads it: its class, [msg.org],
    [msg.address], [msg.body], and whether the object has an attribute named
    [outgoing] at all (what [hasattr(msg, 'outgoing')] tests). *)
Record ESP2Message := {
  msg_class : msg_type;
  org : Z;
  address : list byte;
  body : list byte;
  has_outgoing : bool
}.

(** A bus-enumerated hardware unit: [type(device).__name__] and
    [device.address]. *)
Record BusObject := {
  device_name : string;
  device_address : Z
}.

(** ** The accumulator and its effects *)

(** A field of a record dictionary: a string, an integer, or the nested
    sender dictionary. *)
Inductive value :=
| VStr (s : string)
| VInt (z : Z)
| VDict (d : Dict.t string).

(** A device or sensor record ([dev_obj], [sensor]). *)
Definition record := Dict.t value.

(** The attributes of a [HaConfig] object. *)
Record HaConfig := {
  eltako : Dict.t (list record);
  sener_id_list : list (list byte);
  sender_address : Z;
  export_logger : bool
}.

(** [HaConfig.__init__]. *)
Definition init (default_sender_address : Z) (save_debug_log_config : bool)
  : HaConfig :=
  {| eltako := []; sener_id_list := [];
     sender_address := default_sender_address;
     export_logger := save_debug_log_config |}.

Inductive exn :=
| KeyError (key : string).

Inductive outcome (A : Type) :=
| Returned (a : A)
| Raised (e : exn).
Arguments Returned {A} a.
Arguments Raised {A} e.

(** A method body: it runs on the current object and leaves the object as
    mutated so far, whether it returns or raises. *)
Definition M (A : Type) : Type := HaConfig -> outcome A * HaConfig.

Definition ret {A} (a : A) : M A := fun self => (Returned a, self).

Definition raise {A} (e : exn) : M A := fun self => (Raised e, self).

Definition bind {A B} (m : M A) (k : A -> M B) : M B :=
  fun self =>
    match m self with
    | (Returned a, self') => k a self'
    | (Raised e, self') => (Raised e, self')
    end.

Notation "x <- m ;; k" := (bind m (fun x => k))
  (at level 61, m at next level, right associativity).
Notation "m ;;; k" := (bind m (fun _ => k))
  (at level 61, right associativity).

Definition read : M HaConfig := fun self => (Returned self, self).

Definition write (self' : HaConfig) : M unit := fun _ => (Returned tt, self').

(** [for x in xs: body(x)]. *)
Fixpoint for_each {A} (xs : list A) (body : A -> M unit) : M unit :=
  match xs with
  | [] => ret tt
  | x :: xs' => body x ;;; for_each xs' body
  end%list.

(** [range(0, n)]. *)
Definition range (n : Z) : list Z := map Z.of_nat (seq 0 (Z.to_nat n)).

(** [d[key]] on an optional field of a table entry. *)
Definition subscript {A} (field : option A) (key : string) : M A :=
  match field with
  | Some a => ret a
  | None => raise (KeyError key)
  end.

(** [if ty not in self.eltako: self.eltako[ty] = []] followed by
    [self.eltako[ty].append(r)]. *)
Definition append_record (ty : string) (r : record) : M unit :=
  self <- read ;;
  let e := if Dict.mem ty (eltako self) then eltako self
           else Dict.set ty [] (eltako self) in
  records <- subscript (Dict.get ty e) ty ;;
  write {| eltako := Dict.set ty (records ++ [r])%list e;
           sener_id_list := sener_id_list self;
           sender_address := sender_address self;
           export_logger := export_logger self |}.

(** [HaConfig.find_device_info]: the first entry of the table for the name. *)
Definition find_device_info (name : string) : option device_info :=
  find (fun i => String.eqb (hw_type i) name) EEP_MAPPING.

(** The dictionary [dev_obj] that one iteration of the loop of [add_device]
    builds for the offset [i]. *)
Definition make_dev_obj (device : BusObject) (info : device_info) (i : Z)
  : M record :=
  let dev_obj : record :=
    [("id", VStr (get_formatted_address (device_address device + i)));
     ("eep", VStr (eep info));
     ("name", VStr (device_name device ++ " - "
                    ++ str_of_int (device_address device + i)))]%list in
  dev_obj <-
    (if existsb (String.eqb (type info)) ["light"; "switch"; "cover"]%list
     then
       self <- read ;;
       let id := get_formatted_address
                   (sender_address self + device_address device + i) in
       se <- subscript (sender_eep info) "sender_eep" ;;
       ret (Dict.set "sender" (VDict [("id", id); ("eep", se)]%list) dev_obj)
     else ret dev_obj) ;;
  ret (if String.eqb (type info) "cover" then
         Dict.set "time_opens" (VInt 25)
           (Dict.set "time_closes" (VInt 24)
              (Dict.set "device_class" (VStr "shutter") dev_obj))
       else dev_obj).

(** One iteration of the loop of [add_device]. *)
Definition add_device_at (device : BusObject) (info : device_info) (i : Z)
  : M unit :=
  dev_obj <- make_dev_obj device info i ;;
  append_record (type info) dev_obj.

(** [HaConfig.add_device]. *)
Definition add_device (device : BusObject) : M unit :=
  match find_device_info (device_name device) with
  | Some info => for_each (range (address_count info)) (add_device_at device info)
  | None => ret tt
  end.

(** [b2a(address).replace(' ', '-').upper()], the id of a sensor record. *)
Definition sensor_address_string (a : list byte) : string :=
  upper (replace_char " " "-" (b2a a)).

(** [ORG_MAPPING[org]]. *)
Definition org_mapping_get (o : Z) : option org_info :=
  option_map snd (find (fun kv => fst kv =? o) ORG_MAPPING).

Section Classifier.

(** [Regular1BSMessage.parse] of the bus library: it either yields a message
    or raises ([None]). The classifier is read for any such decoder. *)
Variable parse : list byte -> option ESP2Message.

(** The frame that [guess_sensor_type_by_address] rebuilds from a body: the
    sentinel, the body without its last byte, and a two-byte checksum. *)
Definition reinterpret (b : list byte) : option (list byte) :=
  match to_bytes_2_big (sum_bytes (removelast b) mod 256) with
  | Some checksum => Some ([xa5; x5a] ++ removelast b ++ checksum)%list
  | None => None
  end.

Definition min_address : list byte := [x00; x00; x10; x01]%list.
Definition max_address : list byte := [x00; x00; x14; x89]%list.

(** The message [_msg] the first rule obtains, unless something raised. *)
Definition reinterpreted (msg : ESP2Message) : option ESP2Message :=
  match reinterpret (body msg) with
  | Some data => parse data
  | None => None
  end.

(** The [try] block of the first rule: [Some] label when it returns, [None]
    when the range test fails or anything raised. *)
Definition guess_1bs (msg : ESP2Message) : option string :=
  match reinterpreted msg with
  | Some _msg =>
      if bytes_leb min_address (address _msg)
         && bytes_leb (address _msg) max_address
      then Some "FTS14EM switch" else None
  | None => None
  end.

(** [HaConfig.guess_sensor_type_by_address]. *)
Definition guess_sensor_type_by_address (msg : ESP2Message) : string :=
  match (if msg_type_eqb (msg_class msg) Regular1BSMessage
         then guess_1bs msg else None) with
  | Some label => label
  | None =>
      if msg_type_eqb (msg_class msg) RPSMessage
         && bytes_ltb [xfe; xdb; x00; x00]%list (address msg)
      then "Wall Switch /Rocker Switch"
      else if msg_type_eqb (msg_class msg) Regular4BSMessage
      then "Multi-Sensor ? "
      else "???"
  end.

(** [HaConfig.add_sensor]. The log lines, among them the notice for a
    discovery request, leave the object alone and are not modelled. *)
Definition add_sensor (msg : ESP2Message) : M unit :=
  if existsb (msg_type_eqb (msg_class msg)) SENSOR_MESSAGE_TYPES then
    if has_outgoing msg then
      self <- read ;;
      if negb (existsb (bytes_eqb (address msg)) (sener_id_list self)) then
        info <- subscript (org_mapping_get (org msg)) (str_of_int (org msg)) ;;
        let address_ := sensor_address_string (address msg) in
        let sensor_type := guess_sensor_type_by_address msg in
        let msg_type_ := msg_type_name (msg_class msg) in
        let comment := "Sensor Type: " ++ sensor_type
                       ++ ", Derived from Msg Type: " ++ msg_type_ in
        let sensor : record :=
          [("id", VStr address_);
           ("eep", VStr (org_eep info));
           ("name", VStr (org_name info ++ " " ++ address_));
           ("comment", VStr comment)]%list in
        let sensor :=
          if String.eqb (org_type info) "binary_sensor"
          then Dict.set "device_class"
                 (VStr "window / door / smoke / motion / ?") sensor
          else sensor in
        append_record (org_type info) sensor ;;;
        self <- read ;;
        write {| eltako := eltako self;
                 sener_id_list := (sener_id_list self ++ [address msg])%list;
                 sender_address := sender_address self;
                 export_logger := export_logger self |}
      else ret tt
    else ret tt
  else ret tt.

(** Feeding a stream of telegrams, one call per telegram; a call that raises
    leaves the object as it was at the raise and the stream goes on. *)
Definition feed_sensors (msgs : list ESP2Message) (self : HaConfig) : HaConfig :=
  fold_left (fun s m => snd (add_sensor m s)) msgs self.

End Classifier.

(** ** Observations on the accumulator *)

(** The list kept under a role, empty when the role has no key yet. *)
Definition records_of (ty : string) (self : HaConfig) : list record :=
  match Dict.get ty (eltako self) with
  | Some l => l
  | None => []
  end.

(** Every record of the accumulator, role after role. *)
Definition all_records (self : HaConfig) : list record :=
  List.concat (Dict.values (eltako self)).

(** [r['id']], when it is a string. *)
Definition record_id (r : record) : option string :=
  match Dict.get "id" r with
  | Some (VStr s) => Some s
  | _ => None
  end.

(** A decoder to instantiate [parse] with on sample telegrams (the one of
    the bus library is not part of the sources). It reads a frame the way
    the classifier builds it: the two-byte sentinel, an eleven-byte body and
    a trailing checksum that is the sum of the body modulo 256. The body
    holds the length byte, the organization code, four data bytes, the four
    address bytes and a status byte; a frame of another organization than
    the 1-byte family is refused. *)
Definition parse_1bs_frame (data : list byte) : option ESP2Message :=
  match data with
  | [s0; s1; h; o; d3; d2; d1; d0; a3; a2; a1; a0; st; ck]%list =>
      let b := [h; o; d3; d2; d1; d0; a3; a2; a1; a0; st]%list in
      if Byte.eqb s0 xa5 && Byte.eqb s1 x5a
         && (sum_bytes b mod 256 =? byte_val ck) && (byte_val o =? 6)
      then Some {| msg_class := Regular1BSMessage; org := 6;
                   address := [a3; a2; a1; a0]%list; body := b;
                   has_outgoing := true |}
      else None
  | _ => None
  end.

(** [self'] differs from [self] at most in the list kept under the role
    [ty] and in the dedup list. *)
Definition same_except_role (ty : string) (self self' : HaConfig) : Prop :=
  (forall ty', ty' <> ty ->
     Dict.get ty' (eltako self') = Dict.get ty' (eltako self))
  /\ sender_address self' = sender_address self
  /\ export_logger self' = export_logger self.

(** The entries of the table whose role takes a sender have a sender
    profile. *)
Definition has_sender_eep (info : device_info) : bool :=
  if existsb (String.eqb (type info)) ["light"; "switch"; "cover"]%list
  then match sender_eep info with Some _ => true | None => false end
  else true.

(** What [add_device] stores in the record for the offset [i] of a unit. *)
Definition device_record (device : BusObject) (info : device_info)
  (sender : Z) (i : Z) (r : record) : Prop :=
  record_id r = Some (get_formatted_address (device_address device + i))
  /\ Dict.get "eep" r = Some (VStr (eep info))
  /\ Dict.get "name" r
     = Some (VStr (device_name device ++ " - "
                   ++ str_of_int (device_address device + i)))
  /\ (existsb (String.eqb (type info)) ["light"; "switch"; "cover"]%list = true ->
      exists se, sender_eep info = Some se
        /\ Dict.get "sender" r
           = Some (VDict [("id", get_formatted_address
                                   (sender + device_address device + i));
                          ("eep", se)]%list))
  /\ (type info = "cover" ->
      Dict.get "device_class" r = Some (VStr "shutter")
      /\ Dict.get "time_closes" r = Some (VInt 24)
      /\ Dict.get "time_opens" r = Some (VInt 25)).

(** A sensor telegram: an instance of one of the sensor message classes
    that carries the [outgoing] marker and whose organization code is one of
    the mapped ones. *)
Definition is_sensor_telegram (msg : ESP2Message) : bool :=
  existsb (msg_type_eqb (msg_class msg)) SENSOR_MESSAGE_TYPES
  && has_outgoing msg
  && match org_mapping_get (org msg) with Some _ => true | None => false end.



(** The telegrams that make [add_sensor] look at the organization table. *)
Definition reaches_org_lookup (msg : ESP2Message) (self : HaConfig) : bool :=
  existsb (msg_type_eqb (msg_class msg)) SENSOR_MESSAGE_TYPES
  && has_outgoing msg
  && negb (existsb (bytes_eqb (address msg)) (sener_id_list self)).

(** The dedup list and the records agree: the addresses recorded are pairwise
    distinct and the ids of the records are exactly their formatted forms. *)
Definition dedup_invariant (self : HaConfig) : Prop :=
  NoDup (sener_id_list self)
  /\ Permutation (map record_id (all_records self))
       (map (fun a => Some (sensor_address_string a)) (sener_id_list self)).

(** Sample telegrams. *)
Definition sample_1bs (a0 : byte) : ESP2Message :=
  {| msg_class := Regular1BSMessage; org := 6;
     address := [x00; x00; x10; a0]%list;
     body := [x0b; x06; x09; x00; x00; x00; x00; x00; x10; a0; x30]%list;
     has_outgoing := true |}.


Definition sample_polling : ESP2Message :=
  {| msg_class := EltakoWrappedRPS; org := 5;
     address := [x00; x00; x00; x02]%list;
     body := [x0b; x05; x70; x00; x00; x00; x00; x00; x00; x02; x30]%list;
     has_outgoing := false |}.

(** The [k] low hexadecimal digits of [n], most significant first: what
    zero padding to width [k] yields for a number below [16^k]. *)
Fixpoint fixed_hex (k : nat) (n : Z) : list ascii :=
  match k with
  | O => []
  | S k' => fixed_hex k' (n / 16) ++ [hex_digit (n mod 16)]
  end%list.

(** The [i]-th hexadecimal digit of an address, counted from the least
    significant one, and its upper-case character. *)
Definition nibble (address : Z) (i : Z) : Z := address / 16 ^ i mod 16.

Definition upper_hex (d : Z) : ascii := ascii_upper (hex_digit d).

(** The characters of a formatted address, given its eight digits. *)
Definition hyphenate (c7 c6 c5 c4 c3 c2 c1 c0 : ascii) : string :=
  string_of_list_ascii
    [c7; c6; "-"; c5; c4; "-"; c3; c2; "-"; c1; c0]%char%list.

(** ** Streams of discovery events *)

(** What the bus reader hands to the accumulator: an enumerated hardware
    unit or a received telegram. *)
Inductive event :=
| Device (device : BusObject)
| Telegram (msg : ESP2Message).

(** The accumulator after a stream of events, one call per event; a call
    that raises leaves the object as it was at the raise. *)
Definition feed (parse : list byte -> option ESP2Message)
  (events : list event) (self : HaConfig) : HaConfig :=
  fold_left (fun s ev =>
               match ev with
               | Device d => snd (add_device d s)
               | Telegram m => snd (add_sensor parse m s)
               end) events self.

(** The addresses of a stream in the order of their first occurrence, after
    the addresses [seen] so far. *)
Fixpoint first_seen (seen : list (list byte)) (addrs : list (list byte))
  : list (list byte) :=
  match addrs with
  | [] => seen
  | a :: rest =>
      if existsb (bytes_eqb a) seen then first_seen seen rest
      else first_seen (seen ++ [a]) rest
  end%list.

(** ** [HaConfig.save_as_yaml_to_flie] *)

(** What can go wrong while the document is printed. *)
Inductive render_exn :=
| RenderKeyError (key : string)
| RenderTypeError.

(** The lines printed to the file so far, and the exception that stopped the
    printing, if any. *)
Definition written : Type := list string * option render_exn.

Definition emit (line : string) : written := ([line], None)%list.

Definition nothing : written := ([], None)%list.

Definition fails (e : render_exn) : written := ([], Some e)%list.

(** Sequencing of two pieces of printing. *)
Definition and_then (w1 w2 : written) : written :=
  match w1 with
  | (l1, None) => ((l1 ++ fst w2)%list, snd w2)
  | (l1, Some e) => (l1, Some e)
  end.

Fixpoint for_lines {A} (xs : list A) (body : A -> written) : written :=
  match xs with
  | [] => nothing
  | x :: xs' => and_then (body x) (for_lines xs' body)
  end%list.

(** ['?' in value]. *)
Fixpoint contains_char (c : ascii) (s : string) : bool :=
  match s with
  | EmptyString => false
  | String c' s' => Ascii.eqb c' c || contains_char c s'
  end.

Definition NEED_TO_BE_COMPLETED : string := " # <= NEED TO BE COMPLETED!!!".

Definition logger_block : list string :=
  ["logger:"; "  default: info"; "  logs:"; "    eltako: debug"]%list.

Section Renderer.

(** [repr] of a dictionary of strings, a built-in of the language; it is
    only reached for a nested dictionary stored under another key than
    ['sender']. *)
Variable repr_dict : Dict.t string -> string.

(** [f"{value}"]. *)
Definition format_value (v : value) : string :=
  match v with
  | VStr s => s
  | VInt z => str_of_int z
  | VDict d => repr_dict d
  end.

(** The two lines of the nested block, [item['sender']['id']] and
    [item['sender']['eep']]. *)
Definition render_sender (v : value) : written :=
  match v with
  | VDict d =>
      and_then
        (match Dict.get "id" d with
         | Some i => emit ("      id: " ++ i)
         | None => fails (RenderKeyError "id")
         end)
        (match Dict.get "eep" d with
         | Some e => emit ("      eep: " ++ e)
         | None => fails (RenderKeyError "eep")
         end)
  | VStr _ | VInt _ => fails RenderTypeError
  end.

(** The body of the loop over [item.keys()]. *)
Definition render_entry (item : record) (entry_key : string) : written :=
  and_then
    (if negb (existsb (String.eqb entry_key) ["id"; "sender"; "comment"]%list)
     then
       match Dict.get entry_key item with
       | Some value =>
           let value :=
             match value with
             | VStr s =>
                 if contains_char "?" s then s ++ NEED_TO_BE_COMPLETED else s
             | _ => format_value value
             end in
           emit ("    " ++ entry_key ++ ": " ++ value)
       | None => fails (RenderKeyError entry_key)
       end
     else nothing)
    (if String.eqb entry_key "sender" then
       and_then (emit "    sender:")
         (match Dict.get entry_key item with
          | Some v => render_sender v
          | None => fails (RenderKeyError entry_key)
          end)
     else nothing).

(** The body of the loop over the records of a role. *)
Definition render_item (item : record) : written :=
  and_then
    (match Dict.get "id" item with
     | Some v => emit ("  - id: " ++ format_value v)
     | None => fails (RenderKeyError "id")
     end)
    (and_then
       (for_lines (map fst item) (render_entry item))
       (if Dict.mem "comment" item then
          match Dict.get "comment" item with
          | Some v => emit ("    #" ++ format_value v)
          | None => fails (RenderKeyError "comment")
          end
        else nothing)).

(** The body of the loop over [e.keys()]. *)
Definition render_role (e : Dict.t (list record)) (type_key : string)
  : written :=
  and_then (emit ("  " ++ type_key ++ ":"))
    (match Dict.get type_key e with
     | Some items => for_lines items render_item
     | None => fails (RenderKeyError type_key)
     end).

(** [HaConfig.save_as_yaml_to_flie]: the lines printed into the file that
    was opened for writing. *)
Definition save_as_yaml_to_flie (self : HaConfig) : written :=
  let e := eltako self in
  and_then (emit "eltako:")
    (and_then (for_lines (map fst e) (render_role e))
       (for_lines logger_block emit)).

End Renderer.

(** A record the renderer can print: it has an id, and what it keeps under
    ['sender'] is a dictionary with an id and a profile. *)
Definition renderable (r : record) : Prop :=
  (exists v, Dict.get "id" r = Some v)
  /\ (forall k, In k (map fst r) -> exists v, Dict.get k r = Some v)
  /\ (forall v, Dict.get "sender" r = Some v ->
        exists d i e, v = VDict d /\ Dict.get "id" d = Some i
                      /\ Dict.get "eep" d = Some e).

(** Every record of every role is renderable, and every key of the
    accumulator has its list. *)
Definition all_renderable (self : HaConfig) : Prop :=
  forall ty items, Dict.get ty (eltako self) = Some items ->
                   Forall renderable items.

(** The layout of the record [add_device] stores for the offset [i] of a
    unit: the three common fields, the sender block of the actuator roles,
    and the three fields of the cover role, in this order. *)
Definition dev_obj_layout (device : BusObject) (info : device_info)
  (sender : Z) (i : Z) : record :=
  ([("id", VStr (get_formatted_address (device_address device + i)));
    ("eep", VStr (eep info));
    ("name", VStr (device_name device ++ " - "
                   ++ str_of_int (device_address device + i)))]
   ++ match existsb (String.eqb (type info)) ["light"; "switch"; "cover"],
            sender_eep info with
      | true, Some se =>
          [("sender",
            VDict [("id", get_formatted_address
                            (sender + device_address device + i));
                   ("eep", se)])]
      | _, _ => []
      end
   ++ (if String.eqb (type info) "cover"
       then [("device_class", VStr "shutter"); ("time_closes", VInt 24);
             ("time_opens", VInt 25)]
       else []))%list.

(** The layout of the record [add_sensor] stores for a telegram. *)
Definition sensor_layout (parse : list byte -> option ESP2Message)
  (msg : ESP2Message) (info : org_info) : record :=
  let id := sensor_address_string (address msg) in
  ([("id", VStr id);
    ("eep", VStr (org_eep info));
    ("name", VStr (org_name info ++ " " ++ id));
    ("comment",
     VStr ("Sensor Type: " ++ guess_sensor_type_by_address parse msg
           ++ ", Derived from Msg Type: " ++ msg_type_name (msg_class msg)))]
   ++ (if String.eqb (org_type info) "binary_sensor"
       then [("device_class", VStr "window / door / smoke / motion / ?")]
       else []))%list.

(** ** The light entities ([eltako/light.py]) *)

Module Light.

Inductive exn :=
| IndexError
| AttributeError (name : string)
| AddressError.

Inductive outcome (A : Type) :=
| Returned (a : A)
| Raised (e : exn).
Arguments Returned {A} a.
Arguments Raised {A} e.

(** A received message as the entities read it: [msg.org] and the bytes of
    [msg.data]. *)
Record message := {
  org : Z;
  data : list byte
}.

(** An element of a command list: a number, or one character of a string
    the list was extended with. *)
Inductive item :=
| Int (z : Z)
| Chr (c : ascii).

Inductive light_class :=
| EltakoDimmableLight
| EltakoSwitchableLight.

(** One call of [send_command(data, optional, packet_type)]. *)
Record command := {
  cmd_data : list item;
  cmd_optional : list item;
  cmd_packet_type : Z
}.

(** The attributes of a light entity that the methods read and write,
    together with the calls it has made so far to [send_command] and
    [schedule_update_ha_state] of the entity base classes. The attribute
    [_brightness] is [None] as long as it has never been assigned. *)
Record entity (A : Type) := {
  class : light_class;
  dev_id : A;
  dev_name : string;
  dev_eep : string;
  on_state : bool;
  brightness : option Z;
  sender_id : string;
  unique_id : string;
  entity_id : string;
  sent : list command;
  scheduled_updates : nat
}.
Arguments class {A} e.
Arguments dev_id {A} e.
Arguments dev_name {A} e.
Arguments dev_eep {A} e.
Arguments on_state {A} e.
Arguments brightness {A} e.
Arguments sender_id {A} e.
Arguments unique_id {A} e.
Arguments entity_id {A} e.
Arguments sent {A} e.
Arguments scheduled_updates {A} e.

Definition CONF_EEP_SUPPORTED : list string := ["A5-38-08"; "M5-38-08"]%list.

(** A platform configuration that went through [PLATFORM_SCHEMA]: the id,
    the profile and the sender id are required strings and the name has a
    default. *)
Record config := {
  CONF_ID : string;
  CONF_EEP : string;
  CONF_SENDER_ID : string;
  CONF_NAME : string
}.

(** [list(s)], what [command.extend(s)] appends for a string. *)
Definition chars (s : string) : list item := map Chr (list_ascii_of_string s).

Section Entities.

(** The type of device addresses with [AddressExpression.parse] (which may
    raise) and [dev_id.plain_address().hex()] of the bus library, and the
    constant [DOMAIN] of the integration. *)
Variable A : Type.
Variable parse_address : string -> option A.
Variable plain_address_hex : A -> string.
Variable DOMAIN : string.

(** [EltakoDimmableLight.__init__]. *)
Definition new_dimmable (id : A) (name eep_ sender : string) : entity A :=
  {| class := EltakoDimmableLight; dev_id := id; dev_name := name;
     dev_eep := eep_; on_state := false; brightness := Some 50;
     sender_id := sender;
     unique_id := DOMAIN ++ "_" ++ plain_address_hex id;
     entity_id := "light." ++ DOMAIN ++ "_" ++ plain_address_hex id;
     sent := []; scheduled_updates := 0 |}.

(** [EltakoSwitchableLight.__init__], which assigns no brightness. *)
Definition new_switchable (id : A) (name eep_ sender : string) : entity A :=
  {| class := EltakoSwitchableLight; dev_id := id; dev_name := name;
     dev_eep := eep_; on_state := false; brightness := None;
     sender_id := sender;
     unique_id := DOMAIN ++ "_" ++ plain_address_hex id;
     entity_id := "light." ++ DOMAIN ++ "_" ++ plain_address_hex id;
     sent := []; scheduled_updates := 0 |}.

(** [setup_platform]: the entities handed to [add_entities]. *)
Definition setup_platform (cfg : config) : outcome (list (entity A)) :=
  let sender := CONF_SENDER_ID cfg in
  let name := CONF_NAME cfg in
  let eep_ := CONF_EEP cfg in
  match parse_address (CONF_ID cfg) with
  | None => Raised AddressError
  | Some id =>
      if existsb (String.eqb eep_) ["A5-38-08"]%list
      then Returned [new_dimmable id name eep_ sender]%list
      else if existsb (String.eqb eep_) ["AM-38-08"]%list
      then Returned [new_switchable id name eep_ sender]%list
      else Returned []%list
  end.

End Entities.

Arguments new_dimmable {A} plain_address_hex DOMAIN id name eep_ sender.
Arguments new_switchable {A} plain_address_hex DOMAIN id name eep_ sender.
Arguments setup_platform {A} parse_address plain_address_hex DOMAIN cfg.

Section Methods.

Context {A : Type}.

(** [math.floor(brightness / 256.0 * 100.0)], a floating-point computation
    on whatever number the caller passes. *)
Variable dim_value : Z -> Z.

Definition with_state (e : entity A) (on : bool) (b : option Z)
  (cmds : list command) (n : nat) : entity A :=
  {| class := class e; dev_id := dev_id e; dev_name := dev_name e;
     dev_eep := dev_eep e; on_state := on; brightness := b;
     sender_id := sender_id e; unique_id := unique_id e;
     entity_id := entity_id e; sent := cmds; scheduled_updates := n |}.

(** [turn_on] of both classes; [kw] is the brightness among the
    keyword arguments, if any. The entity returned with an exception is the
    entity as it was when the exception was raised. *)
Definition turn_on (kw : option Z) (e : entity A) : outcome unit * entity A :=
  let e1 := match kw with
            | Some b => with_state e (on_state e) (Some b) (sent e)
                          (scheduled_updates e)
            | None => e
            end in
  match brightness e1 with
  | None => (Raised (AttributeError "_brightness"), e1)
  | Some b =>
      let bval := dim_value b in
      let bval := if bval =? 0 then 1 else bval in
      let cmd := ([Int 0xA5; Int 0x02; Int bval; Int 0x01; Int 0x09]
                  ++ chars (sender_id e1) ++ [Int 0x00])%list in
      (Returned tt,
       with_state e1 true (brightness e1)
         (sent e1 ++ [{| cmd_data := cmd; cmd_optional := [];
                         cmd_packet_type := 0x01 |}])%list
         (scheduled_updates e1))
  end.

(** [turn_off] of both classes. *)
Definition turn_off (e : entity A) : entity A :=
  let cmd := ([Int 0xA5; Int 0x02; Int 0x00; Int 0x01; Int 0x09]
              ++ chars (sender_id e) ++ [Int 0x00])%list in
  with_state e false (brightness e)
    (sent e ++ [{| cmd_data := cmd; cmd_optional := [];
                   cmd_packet_type := 0x01 |}])%list
    (scheduled_updates e).

(** [msg.data[i]]. *)
Definition data_at (msg : message) (i : nat) : option Z :=
  option_map byte_val (nth_error (data msg) i).

(** [EltakoDimmableLight.value_changed]. The dim value is a byte, on which
    [math.floor(val / 100.0 * 256.0)] is the integer quotient written
    here. An exception is raised before anything is assigned. *)
Definition value_changed_dimmable (msg : message) (e : entity A)
  : outcome (entity A) :=
  if existsb (String.eqb (dev_eep e)) ["A5-38-08"]%list then
    if negb (org msg =? 0x07) then Returned e
    else
      match data_at msg 0 with
      | None => Raised IndexError
      | Some d0 =>
          if negb (d0 =? 0x02) then Returned e
          else
            match data_at msg 1 with
            | None => Raised IndexError
            | Some d1 =>
                let expected_3 := if negb (d1 =? 0) then 0x09 else 0x08 in
                match data_at msg 3 with
                | None => Raised IndexError
                | Some d3 =>
                    if negb (d3 =? expected_3) then Returned e
                    else
                      let val := d1 in
                      Returned
                        (with_state e (negb (val =? 0))
                           (Some (val * 256 / 100)) (sent e)
                           (S (scheduled_updates e)))
                end
            end
      end
  else Returned e.

(** [EltakoSwitchableLight.value_changed]. *)
Definition value_changed_switchable (msg : message) (e : entity A)
  : outcome (entity A) :=
  if existsb (String.eqb (dev_eep e)) ["M5-38-08"]%list then
    if negb (org msg =? 0x05) then Returned e
    else
      match data_at msg 0 with
      | None => Raised IndexError
      | Some d0 =>
          let on := if d0 =? 0x70 then true
                    else if d0 =? 0x50 then false
                    else on_state e in
          Returned (with_state e on (brightness e) (sent e)
                      (S (scheduled_updates e)))
      end
  else Returned e.

(** [value_changed] of the class of the entity. *)
Definition value_changed (msg : message) (e : entity A)
  : outcome (entity A) :=
  match class e with
  | EltakoDimmableLight => value_changed_dimmable msg e
  | EltakoSwitchableLight => value_changed_switchable msg e
  end.

End Methods.

(** Sample configurations and entities. *)

Definition sample_config (profile : string) : config :=
  {| CONF_ID := "00-00-00-05"; CONF_EEP := profile;
     CONF_SENDER_ID := "00-00-B0-05"; CONF_NAME := "Light" |}.

Definition sample_light (c : light_class) (profile : string) : entity string :=
  match c with
  | EltakoDimmableLight =>
      new_dimmable (fun a => a) "eltako" "00-00-00-05" "Light" profile
        "00-00-B0-05"
  | EltakoSwitchableLight =>
      new_switchable (fun a => a) "eltako" "00-00-00-05" "Light" profile
        "00-00-B0-05"
  end.

End Light.

(** ** The gateway registry ([custom_components/eltako]) *)

Module Gateway.

Inductive exn :=
| KeyError (key : string).

Inductive outcome (A : Type) :=
| Returned (a : A)
| Raised (e : exn).
Arguments Returned {A} a.
Arguments Raised {A} e.

(** [pat in s] on strings. *)
Fixpoint contains (pat s : string) : bool :=
  prefix pat s
  || match s with
     | EmptyString => false
     | String _ s' => contains pat s'
     end.

(** [s.replace(old, new)] for a non-empty [old]: the occurrences are
    replaced from the left and do not overlap; [skip] counts the characters
    of an occurrence that are still to be dropped. *)
Fixpoint replace_from (old new : string) (skip : nat) (s : string) : string :=
  match s with
  | EmptyString => EmptyString
  | String c s' =>
      match skip with
      | S k => replace_from old new k s'
      | O =>
          if prefix old s
          then new ++ replace_from old new (String.length old - 1) s'
          else String c (replace_from old new 0 s')
      end
  end.

(** [s.replace('', new)]: [new] before every character and at the end. *)
Fixpoint intersperse (new s : string) : string :=
  match s with
  | EmptyString => new
  | String c s' => new ++ String c (intersperse new s')
  end.

(** [s.replace(old, new)]. *)
Definition replace (old new s : string) : string :=
  match old with
  | EmptyString => intersperse new s
  | String _ _ => replace_from old new 0 s
  end.

(** [del d[k]] on a dictionary that has the key. *)
Fixpoint remove {V} (k : string) (d : Dict.t V) : Dict.t V :=
  match d with
  | [] => []
  | (k', v) :: d' =>
      if String.eqb k' k then d' else (k', v) :: remove k d'
  end%list.

Section Registry.

(** The objects kept in [hass.data[DATA_ELTAKO]] with their attribute
    [dev_name], and the constants of the integration. *)
Variable V : Type.
Variable dev_name : V -> string.
Variable DATA_ELTAKO : string.
Variable GATEWAY_DEFAULT_NAME : string.
Variable OLD_GATEWAY_DEFAULT_NAME : string.

(** [hass.data]: the dictionary kept under [DATA_ELTAKO], if there is one. *)
Definition hass : Type := option (Dict.t V).

(** The body of the first loop of [migrate_old_gateway_descriptions]:
    what the key [key] of the registry [d] adds to [migration_dict]. *)
Definition migrate_key (d : Dict.t V) (m : Dict.t V) (key : string)
  : Dict.t V :=
  match Dict.get key d with
  | Some v =>
      let m := if contains GATEWAY_DEFAULT_NAME key
               then Dict.set (replace GATEWAY_DEFAULT_NAME
                                OLD_GATEWAY_DEFAULT_NAME key) v m
               else m in
      if contains OLD_GATEWAY_DEFAULT_NAME key
      then Dict.set (replace OLD_GATEWAY_DEFAULT_NAME
                       GATEWAY_DEFAULT_NAME key) v m
      else m
  | None => m
  end.

Definition migration_dict (d : Dict.t V) : Dict.t V :=
  fold_left (migrate_key d) (map fst d) [].

(** The second loop: every entry of [migration_dict] is stored into the
    registry. *)
Definition store_all (m d : Dict.t V) : Dict.t V :=
  fold_left (fun acc key =>
               match Dict.get key m with
               | Some v => Dict.set key v acc
               | None => acc
               end) (map fst m) d.

(** The registry after [migrate_old_gateway_descriptions]. *)
Definition migrated (d : Dict.t V) : Dict.t V := store_all (migration_dict d) d.

(** [migrate_old_gateway_descriptions]. *)
Definition migrate_old_gateway_descriptions (h : hass) : outcome unit * hass :=
  match h with
  | Some d => (Returned tt, Some (migrated d))
  | None => (Raised (KeyError DATA_ELTAKO), None)
  end.

(** [get_gateway_from_hass]; [description] is
    [config_entry.data[CONF_GATEWAY_DESCRIPTION]]. *)
Definition get_gateway_from_hass (h : hass) (description : string)
  : outcome V * hass :=
  match migrate_old_gateway_descriptions h with
  | (Returned _, Some d) =>
      match Dict.get description d with
      | Some g => (Returned g, Some d)
      | None => (Raised (KeyError description), Some d)
      end
  | (Returned _, None) => (Raised (KeyError DATA_ELTAKO), None)
  | (Raised e, h') => (Raised e, h')
  end.

(** [set_gateway_to_hass]. *)
Definition set_gateway_to_hass (h : hass) (gateway_enity : V)
  : outcome unit * hass :=
  match migrate_old_gateway_descriptions h with
  | (Returned _, Some d) =>
      (Returned tt, Some (Dict.set (dev_name gateway_enity) gateway_enity d))
  | (Returned _, None) => (Raised (KeyError DATA_ELTAKO), None)
  | (Raised e, h') => (Raised e, h')
  end.

(** [async_unload_entry]: the result, the registry afterwards, and the
    gateways on which [unload()] was called. *)
Definition async_unload_entry (h : hass) (description : string)
  : outcome bool * hass * list V :=
  match get_gateway_from_hass h description with
  | (Returned gateway, Some d) =>
      if Dict.mem (dev_name gateway) d
      then (Returned true, Some (remove (dev_name gateway) d), [gateway])
      else (Raised (KeyError (dev_name gateway)), Some d, [gateway])
  | (Returned gateway, None) =>
      (Raised (KeyError DATA_ELTAKO), None, [gateway])
  | (Raised e, h') => (Raised e, h', [])
  end%list.

(** One write into a dictionary. *)
Definition store (m : Dict.t V) (kv : string * V) : Dict.t V :=
  Dict.set (fst kv) (snd kv) m.

(** The entries a registry writes into [migration_dict], in the order of
    the writes. *)
Definition writes_of_key (d : Dict.t V) (key : string) : list (string * V) :=
  match Dict.get key d with
  | Some v =>
      (if contains GATEWAY_DEFAULT_NAME key
       then [(replace GATEWAY_DEFAULT_NAME OLD_GATEWAY_DEFAULT_NAME key, v)]
       else [])
      ++ (if contains OLD_GATEWAY_DEFAULT_NAME key
          then [(replace OLD_GATEWAY_DEFAULT_NAME GATEWAY_DEFAULT_NAME key, v)]
          else [])
  | None => []
  end%list.

Definition writes (d : Dict.t V) : list (string * V) :=
  flat_map (writes_of_key d) (map fst d).

(** The value the last write to [k] in a list of writes leaves behind, [r]
    when there is none. *)
Definition last_write (k : string) (r : option V) (ws : list (string * V))
  : option V :=
  fold_left (fun r kv => if String.eqb (fst kv) k then Some (snd kv) else r)
    ws r.

(** Some key of the registry migrates onto the name [k]. *)
Definition migrates_onto (d : Dict.t V) (key k : string) : Prop :=
  In key (map fst d)
  /\ ((contains GATEWAY_DEFAULT_NAME key = true
       /\ replace GATEWAY_DEFAULT_NAME OLD_GATEWAY_DEFAULT_NAME key = k)
      \/ (contains OLD_GATEWAY_DEFAULT_NAME key = true
          /\ replace OLD_GATEWAY_DEFAULT_NAME GATEWAY_DEFAULT_NAME key = k)).

End Registry.

End Gateway.

(** * Facts *)

(** ** Dictionaries *)

Module DictFacts.

Section WithValues.
Context {V : Type}.
Implicit Types (d : Dict.t V) (k : string) (v : V).

Lemma get_set_same k v d : Dict.get k (Dict.set k v d) = Some v.
Proof.
  induction d as [|[k' v'] d IH]; simpl.
  - now rewrite String.eqb_refl.
  - destruct (String.eqb k' k) eqn:E; simpl; rewrite E; auto.
Qed.

Lemma get_set_other k k' v d :
  k' <> k -> Dict.get k' (Dict.set k v d) = Dict.get k' d.
Proof.
  intros Hne. induction d as [|[k0 v0] d IH]; simpl.
  - destruct (String.eqb k k') eqn:E; auto.
    apply String.eqb_eq in E. congruence.
  - destruct (String.eqb k0 k) eqn:E; simpl.
    + apply String.eqb_eq in E. subst k0.
      destruct (String.eqb k k') eqn:E'; auto.
      apply String.eqb_eq in E'. congruence.
    + destruct (String.eqb k0 k'); auto.
Qed.

Lemma mem_get k d : Dict.mem k d = true <-> exists v, Dict.get k d = Some v.
Proof.
  unfold Dict.mem. destruct (Dict.get k d); split; eauto; try discriminate.
  intros [v Hv]. discriminate.
Qed.

End WithValues.

End DictFacts.

(** ** Hexadecimal digits *)

Lemma hex_digits_aux_acc fuel : forall n acc,
  hex_digits_aux fuel n acc = (hex_digits_aux fuel n [] ++ acc)%list.
Proof.
  induction fuel as [|fuel IH]; intros n acc; simpl; [reflexivity|].
  destruct (n <? 16); [reflexivity|].
  rewrite (IH _ [_]%list), (IH _ (_ :: acc)), <- app_assoc. reflexivity.
Qed.

Lemma hex_digits_aux_step fuel n :
  hex_digits_aux (S fuel) n [] =
  if n <? 16 then [hex_digit n]%list
  else (hex_digits_aux fuel (n / 16) [] ++ [hex_digit (n mod 16)])%list.
Proof. simpl. destruct (n <? 16); [reflexivity | apply hex_digits_aux_acc]. Qed.

Lemma pow16_succ (k : nat) : 16 ^ Z.of_nat (S k) = 16 * 16 ^ Z.of_nat k.
Proof. rewrite Nat2Z.inj_succ, Z.pow_succ_r by lia. reflexivity. Qed.

(** One more unit of fuel changes nothing once the fuel covers the number. *)
Lemma hex_digits_aux_more fuel : forall n,
  (1 <= fuel)%nat -> 0 <= n < 16 ^ Z.of_nat fuel ->
  hex_digits_aux (S fuel) n [] = hex_digits_aux fuel n [].
Proof.
  induction fuel as [|fuel IH]; intros n Hf Hn; [lia|].
  rewrite (hex_digits_aux_step (S fuel) n), (hex_digits_aux_step fuel n).
  destruct (n <? 16) eqn:E; [reflexivity|].
  apply Z.ltb_ge in E. rewrite pow16_succ in Hn.
  rewrite IH; [reflexivity | | ].
  - destruct fuel; [simpl in Hn; lia | lia].
  - split; [apply Z.div_pos; lia|].
    apply Z.div_lt_upper_bound; lia.
Qed.

Lemma hex_digits_aux_enough d : forall fuel n,
  (1 <= fuel)%nat -> 0 <= n < 16 ^ Z.of_nat fuel ->
  hex_digits_aux (d + fuel) n [] = hex_digits_aux fuel n [].
Proof.
  induction d as [|d IH]; intros fuel n Hf Hn; [reflexivity|].
  simpl plus. rewrite hex_digits_aux_more; [now apply IH | lia |].
  split; [lia|]. apply Z.lt_le_trans with (16 ^ Z.of_nat fuel); [lia|].
  apply Z.pow_le_mono_r; lia.
Qed.

Lemma hex_digits_fuel_covers n :
  0 <= n -> n < 16 ^ Z.of_nat (S (Z.to_nat (Z.log2 n))).
Proof.
  intros Hn. rewrite Nat2Z.inj_succ, Z2Nat.id by apply Z.log2_nonneg.
  destruct (Z.eq_dec n 0) as [->|Hz]; [reflexivity|].
  apply Z.lt_le_trans with (2 ^ Z.succ (Z.log2 n)).
  - apply Z.log2_spec. lia.
  - apply Z.pow_le_mono_l. lia.
Qed.

(** With any fuel that covers the number the digits are those of
    [hex_digits]. *)
Lemma hex_digits_any_fuel fuel n :
  (1 <= fuel)%nat -> 0 <= n < 16 ^ Z.of_nat fuel ->
  hex_digits n = hex_digits_aux fuel n [].
Proof.
  intros Hf Hn. unfold hex_digits.
  set (f0 := S (Z.to_nat (Z.log2 n))).
  assert (H0 : 0 <= n < 16 ^ Z.of_nat f0)
    by (split; [lia | apply hex_digits_fuel_covers; lia]).
  destruct (Nat.le_ge_cases f0 fuel) as [Hle|Hle].
  - replace fuel with ((fuel - f0) + f0)%nat by lia.
    symmetry. apply hex_digits_aux_enough; [subst f0; lia | exact H0].
  - replace f0 with ((f0 - fuel) + fuel)%nat by lia.
    apply hex_digits_aux_enough; assumption.
Qed.

(** The recursion the digits obey: the fuel never runs out. *)
Lemma hex_digits_unfold n :
  0 <= n ->
  hex_digits n =
  if n <? 16 then [hex_digit n]%list
  else (hex_digits (n / 16) ++ [hex_digit (n mod 16)])%list.
Proof.
  intros Hn.
  assert (Hc := hex_digits_fuel_covers n Hn).
  unfold hex_digits at 1. rewrite hex_digits_aux_step.
  destruct (n <? 16) eqn:E; [reflexivity|].
  apply Z.ltb_ge in E. f_equal. symmetry.
  rewrite pow16_succ in Hc.
  apply hex_digits_any_fuel.
  - destruct (Z.to_nat (Z.log2 n)) eqn:El; [simpl in Hc; lia | lia].
  - split; [apply Z.div_pos; lia | apply Z.div_lt_upper_bound; lia].
Qed.

Lemma fixed_hex_zero k : fixed_hex k 0 = repeat "0"%char k.
Proof.
  induction k as [|k IH]; [reflexivity|].
  simpl fixed_hex. change (0 / 16) with 0. rewrite IH.
  change (hex_digit (0 mod 16)) with "0"%char.
  rewrite <- repeat_cons. reflexivity.
Qed.

Lemma length_fixed_hex k : forall n, List.length (fixed_hex k n) = k.
Proof.
  induction k as [|k IH]; intros n; [reflexivity|].
  simpl. rewrite length_app, IH. simpl. lia.
Qed.

(** Zero padding to width [k] of a number below [16^k] gives exactly its
    [k] low digits. *)
Lemma zfill_hex_digits k : forall n,
  (1 <= k)%nat -> 0 <= n < 16 ^ Z.of_nat k ->
  (List.length (hex_digits n) <= k)%nat
  /\ zfill k (hex_digits n) = fixed_hex k n.
Proof.
  induction k as [|k IH]; intros n Hk Hn; [lia|].
  rewrite hex_digits_unfold by lia.
  destruct (n <? 16) eqn:E.
  - apply Z.ltb_lt in E. split; [simpl; lia|].
    unfold zfill. simpl fixed_hex.
    rewrite Z.div_small, Z.mod_small, fixed_hex_zero by lia.
    simpl List.length. replace (S k - 1)%nat with k by lia. reflexivity.
  - apply Z.ltb_ge in E. rewrite pow16_succ in Hn.
    assert (Hk' : (1 <= k)%nat)
      by (destruct k; [simpl in Hn; lia | lia]).
    destruct (IH (n / 16) Hk') as [Hlen Hfill].
    { split; [apply Z.div_pos; lia | apply Z.div_lt_upper_bound; lia]. }
    split; [rewrite length_app; simpl; lia|].
    simpl fixed_hex. rewrite <- Hfill. unfold zfill.
    rewrite length_app, app_assoc. simpl List.length.
    replace (S k - (List.length (hex_digits (n / 16)) + 1))%nat
      with (k - List.length (hex_digits (n / 16)))%nat by lia.
    reflexivity.
Qed.

(** ** The address formatter on 32-bit addresses *)

Ltac nibble_cases d H :=
  assert (d = 0 \/ d = 1 \/ d = 2 \/ d = 3 \/ d = 4 \/ d = 5 \/ d = 6 \/ d = 7
          \/ d = 8 \/ d = 9 \/ d = 10 \/ d = 11 \/ d = 12 \/ d = 13 \/ d = 14
          \/ d = 15) as H by lia;
  repeat (destruct H as [H|H]; [subst d | ]); [ .. | subst d].

Lemma upper_hex_is_upper_hex d :
  0 <= d < 16 -> is_upper_hex (upper_hex d) = true.
Proof. intros Hd. nibble_cases d H; reflexivity. Qed.

Lemma upper_hex_inj d e :
  0 <= d < 16 -> 0 <= e < 16 -> upper_hex d = upper_hex e -> d = e.
Proof.
  intros Hd He Heq.
  nibble_cases d H; nibble_cases e H';
    first [reflexivity | vm_compute in Heq; discriminate Heq].
Qed.

Lemma nibble_range a i : 0 <= nibble a i < 16.
Proof. unfold nibble. apply Z.mod_pos_bound. lia. Qed.

Lemma fixed_hex_8 a :
  fixed_hex 8 a =
  map (fun i => hex_digit (nibble a i)) [7; 6; 5; 4; 3; 2; 1; 0]%list.
Proof.
  unfold nibble. simpl.
  repeat rewrite Z.div_div by lia. rewrite Z.div_1_r. reflexivity.
Qed.

(** On a 32-bit address the formatter spells the eight nibbles, most
    significant first, in upper case and hyphenated in pairs. *)
Lemma get_formatted_address_32 a :
  0 <= a < 2 ^ 32 ->
  get_formatted_address a =
  hyphenate (upper_hex (nibble a 7)) (upper_hex (nibble a 6))
            (upper_hex (nibble a 5)) (upper_hex (nibble a 4))
            (upper_hex (nibble a 3)) (upper_hex (nibble a 2))
            (upper_hex (nibble a 1)) (upper_hex (nibble a 0)).
Proof.
  intros Ha. unfold get_formatted_address, format_08x.
  replace (a <? 0) with false by (symmetry; apply Z.ltb_ge; lia).
  destruct (zfill_hex_digits 8 a) as [_ ->]; [lia | exact Ha |].
  rewrite fixed_hex_8. unfold upper_hex. cbv [map].
  generalize (hex_digit (nibble a 7)) (hex_digit (nibble a 6))
             (hex_digit (nibble a 5)) (hex_digit (nibble a 4))
             (hex_digit (nibble a 3)) (hex_digit (nibble a 2))
             (hex_digit (nibble a 1)) (hex_digit (nibble a 0)).
  reflexivity.
Qed.

Lemma nibble_zero a : nibble a 0 = a mod 16.
Proof. unfold nibble. change (16 ^ 0) with 1. now rewrite Z.div_1_r. Qed.

Lemma nibble_shift a i : 0 <= i -> nibble (a / 16) i = nibble a (i + 1).
Proof.
  intros Hi. unfold nibble.
  rewrite Z.div_div by (try apply Z.pow_pos_nonneg; lia).
  rewrite Z.pow_add_r by lia. change (16 ^ 1) with 16.
  now rewrite (Z.mul_comm 16).
Qed.

(** A number below [16^k] is determined by its [k] low digits. *)
Lemma nibbles_determine (k : nat) : forall a b,
  0 <= a < 16 ^ Z.of_nat k -> 0 <= b < 16 ^ Z.of_nat k ->
  (forall i, 0 <= i < Z.of_nat k -> nibble a i = nibble b i) ->
  a = b.
Proof.
  induction k as [|k IH]; intros a b Ha Hb H.
  - simpl in Ha, Hb. lia.
  - rewrite pow16_succ in Ha, Hb.
    assert (Hq : a / 16 = b / 16).
    { apply IH.
      - split; [apply Z.div_pos; lia | apply Z.div_lt_upper_bound; lia].
      - split; [apply Z.div_pos; lia | apply Z.div_lt_upper_bound; lia].
      - intros i Hi. rewrite !nibble_shift by lia. apply H. lia. }
    assert (Hr : a mod 16 = b mod 16).
    { rewrite <- !nibble_zero. apply H. lia. }
    rewrite (Z.div_mod a 16), (Z.div_mod b 16) by lia. congruence.
Qed.

Lemma get_formatted_address_inj a b :
  0 <= a < 2 ^ 32 -> 0 <= b < 2 ^ 32 ->
  get_formatted_address a = get_formatted_address b -> a = b.
Proof.
  intros Ha Hb Heq.
  rewrite (get_formatted_address_32 a Ha), (get_formatted_address_32 b Hb) in Heq.
  unfold hyphenate in Heq. simpl in Heq.
  injection Heq as E7 E6 E5 E4 E3 E2 E1 E0.
  apply (nibbles_determine 8); try assumption.
  intros i Hi.
  assert (Hc : i = 0 \/ i = 1 \/ i = 2 \/ i = 3 \/ i = 4 \/ i = 5 \/ i = 6
               \/ i = 7) by lia.
  repeat (destruct Hc as [->|Hc]; [apply upper_hex_inj; auto using nibble_range|]).
  subst i. apply upper_hex_inj; auto using nibble_range.
Qed.

Lemma get_formatted_address_shape a :
  0 <= a < 2 ^ 32 ->
  String.length (get_formatted_address a) = 11%nat
  /\ is_octet_address (get_formatted_address a) = true.
Proof.
  intros Ha. rewrite (get_formatted_address_32 a Ha).
  split; [reflexivity|].
  unfold hyphenate, is_octet_address.
  rewrite list_ascii_of_string_of_list_ascii.
  cbv [forallb]. rewrite !upper_hex_is_upper_hex by apply nibble_range.
  reflexivity.
Qed.

(** ** The address formatter on every non-negative address *)

Lemma hex_digits_aux_upper_hex fuel : forall n acc,
  0 <= n ->
  Forall (fun c => is_upper_hex (ascii_upper c) = true) acc ->
  Forall (fun c => is_upper_hex (ascii_upper c) = true)
    (hex_digits_aux fuel n acc).
Proof.
  induction fuel as [|fuel IH]; intros n acc Hn Hacc; simpl; [exact Hacc|].
  destruct (n <? 16) eqn:E.
  - apply Z.ltb_lt in E. constructor; [|exact Hacc].
    apply upper_hex_is_upper_hex. lia.
  - apply IH; [apply Z.div_pos; lia|].
    constructor; [|exact Hacc].
    apply upper_hex_is_upper_hex, Z.mod_pos_bound. lia.
Qed.

Lemma zfill_upper_hex width ds :
  Forall (fun c => is_upper_hex (ascii_upper c) = true) ds ->
  (width <= List.length (zfill width ds))%nat
  /\ Forall (fun c => is_upper_hex (ascii_upper c) = true) (zfill width ds).
Proof.
  intros H. unfold zfill. split.
  - rewrite length_app, repeat_length. lia.
  - apply Forall_app. split; [|exact H].
    apply Forall_forall. intros c Hc. apply repeat_spec in Hc. now subst.
Qed.

Lemma hyphenate_first_eight c7 c6 c5 c4 c3 c2 c1 c0 rest :
  let a := upper (string_of_list_ascii
                    (c7 :: c6 :: c5 :: c4 :: c3 :: c2 :: c1 :: c0 :: rest)) in
  slice 0 2 a ++ "-" ++ slice 2 4 a ++ "-" ++ slice 4 6 a ++ "-" ++ slice 6 8 a
  = hyphenate (ascii_upper c7) (ascii_upper c6) (ascii_upper c5)
      (ascii_upper c4) (ascii_upper c3) (ascii_upper c2) (ascii_upper c1)
      (ascii_upper c0).
Proof.
  intros a. subst a. unfold slice. cbn [string_of_list_ascii upper].
  cbn [Nat.sub substring].
  destruct (upper (string_of_list_ascii rest)); reflexivity.
Qed.

(** Whatever the size of a non-negative address, the formatter yields four
    hyphenated octets (those of its eight leading hexadecimal digits). *)
Lemma get_formatted_address_nonneg_shape a :
  0 <= a ->
  String.length (get_formatted_address a) = 11%nat
  /\ is_octet_address (get_formatted_address a) = true.
Proof.
  intros Ha. unfold get_formatted_address, format_08x.
  replace (a <? 0) with false by (symmetry; apply Z.ltb_ge; lia).
  destruct (zfill_upper_hex 8 (hex_digits a)) as [Hlen Hall].
  { apply hex_digits_aux_upper_hex; [exact Ha | constructor]. }
  destruct (zfill 8 (hex_digits a))
    as [|c7 [|c6 [|c5 [|c4 [|c3 [|c2 [|c1 [|c0 rest]]]]]]]];
    simpl in Hlen; try lia.
  rewrite hyphenate_first_eight.
  split; [reflexivity|].
  unfold hyphenate, is_octet_address.
  rewrite list_ascii_of_string_of_list_ascii.
  repeat match goal with
         | H : Forall _ (_ :: _) |- _ => inversion_clear H
         end.
  cbv [forallb].
  repeat match goal with
         | H : is_upper_hex _ = true |- _ => rewrite H; clear H
         end.
  reflexivity.
Qed.

(** C9. For every address from [0] to [2^32 - 1], [get_formatted_address]
    returns a string of eleven characters made of four octets of two
    upper-case hexadecimal digits separated by hyphens, and on that range
    two distinct addresses never format to the same string. *)
Theorem get_formatted_address_octets_injective :
  (forall a, 0 <= a <= 2 ^ 32 - 1 ->
     String.length (get_formatted_address a) = 11%nat
     /\ is_octet_address (get_formatted_address a) = true)
  /\ (forall a b, 0 <= a <= 2 ^ 32 - 1 -> 0 <= b <= 2 ^ 32 - 1 ->
        a <> b -> get_formatted_address a <> get_formatted_address b).
Proof.
  split.
  - intros a Ha. apply get_formatted_address_shape. lia.
  - intros a b Ha Hb Hne Heq. apply Hne.
    apply get_formatted_address_inj; [lia | lia | exact Heq].
Qed.

Lemma get_formatted_address_octets_injective_witness :
  is_octet_address (get_formatted_address 0x1001) = true
  /\ get_formatted_address 0x1001 <> get_formatted_address 0x1489.
Proof.
  split.
  - apply (proj1 get_formatted_address_octets_injective 0x1001). lia.
  - apply (proj2 get_formatted_address_octets_injective 0x1001 0x1489); lia.
Defined.

(** Sample values, among them what the formatter does outside the 32-bit
    range. *)
Example format_sample_1 : get_formatted_address 0x100 = "00-00-01-00".
Proof. reflexivity. Qed.

Example format_sample_2 : get_formatted_address 0xFEDB1a2b = "FE-DB-1A-2B".
Proof. reflexivity. Qed.

Example format_sample_negative : get_formatted_address (-1) = "-0-00-00-01".
Proof. reflexivity. Qed.

Example format_sample_wide : get_formatted_address 0x123456789 = "12-34-56-78".
Proof. reflexivity. Qed.

(** ** Appending a record under a role *)

Module DictValues.

Section WithValues.
Context {V : Type}.
Implicit Types (d : Dict.t V) (k : string) (v : V).

Lemma values_set_absent k v d :
  Dict.get k d = None ->
  Dict.values (Dict.set k v d) = (Dict.values d ++ [v])%list.
Proof.
  unfold Dict.values. induction d as [|[k0 v0] d IH]; simpl; intros H.
  - reflexivity.
  - destruct (String.eqb k0 k); [discriminate|]. simpl. now rewrite IH.
Qed.

Lemma values_set_present k v v0 d :
  Dict.get k d = Some v0 ->
  exists before after,
    Dict.values d = (before ++ v0 :: after)%list
    /\ Dict.values (Dict.set k v d) = (before ++ v :: after)%list.
Proof.
  unfold Dict.values. induction d as [|[k1 v1] d IH]; simpl; intros H.
  - discriminate.
  - destruct (String.eqb k1 k).
    + injection H as ->. exists []%list, (map snd d). split; reflexivity.
    + destruct (IH H) as (before & after & E1 & E2).
      exists (v1 :: before)%list, after. simpl. rewrite E1, E2. split; reflexivity.
Qed.

End WithValues.

End DictValues.

Lemma Permutation_snoc_inside {A} (x : A) (l1 l2 l3 : list A) :
  Permutation (l1 ++ (l2 ++ [x]) ++ l3)%list (x :: l1 ++ l2 ++ l3)%list.
Proof.
  rewrite <- app_assoc. simpl. rewrite !app_assoc.
  symmetry. apply Permutation_middle.
Qed.

Lemma append_record_run ty r self :
  exists self',
    append_record ty r self = (Returned tt, self')
    /\ records_of ty self' = (records_of ty self ++ [r])%list
    /\ same_except_role ty self self'
    /\ sener_id_list self' = sener_id_list self
    /\ Permutation (all_records self') (r :: all_records self).
Proof.
  unfold append_record, bind, read, write, records_of, same_except_role,
    all_records, Dict.mem.
  destruct (Dict.get ty (eltako self)) as [l|] eqn:E.
  - rewrite E. simpl. eexists. split; [reflexivity|]. simpl.
    rewrite DictFacts.get_set_same. split; [reflexivity|].
    split; [|split; [reflexivity|]].
    + split; [|split; reflexivity].
      intros ty' Hne. now apply DictFacts.get_set_other.
    + destruct (DictValues.values_set_present ty (l ++ [r])%list l _ E)
        as (before & after & E1 & E2).
      rewrite E1, E2, !concat_app. simpl. apply Permutation_snoc_inside.
  - rewrite DictFacts.get_set_same. simpl. eexists. split; [reflexivity|].
    simpl. rewrite DictFacts.get_set_same. split; [reflexivity|].
    split; [|split; [reflexivity|]].
    + split; [|split; reflexivity].
      intros ty' Hne. now rewrite !DictFacts.get_set_other.
    + assert (Es : Dict.get ty (Dict.set ty ([] : list record) (eltako self))
                   = Some []%list) by apply DictFacts.get_set_same.
      destruct (DictValues.values_set_present ty [r]%list []%list _ Es)
        as (before & after & E1 & E2).
      rewrite E2. rewrite DictValues.values_set_absent in E1 by exact E.
      apply (f_equal (@List.concat record)) in E1.
      rewrite !concat_app in E1. simpl in E1. rewrite !app_nil_r in E1.
      rewrite E1, concat_app. simpl.
      symmetry. apply Permutation_middle.
Qed.

(** ** [add_device] *)

Lemma find_device_info_in name info :
  find_device_info name = Some info ->
  In info EEP_MAPPING /\ hw_type info = name.
Proof.
  unfold find_device_info. intros H. apply find_some in H.
  destruct H as [Hin Heq]. split; [exact Hin | now apply String.eqb_eq].
Qed.

Lemma EEP_MAPPING_has_sender_eep info :
  In info EEP_MAPPING -> has_sender_eep info = true.
Proof.
  assert (H : forallb has_sender_eep EEP_MAPPING = true) by reflexivity.
  rewrite forallb_forall in H. apply H.
Qed.

Lemma EEP_MAPPING_address_count info :
  In info EEP_MAPPING -> 1 <= address_count info <= 4.
Proof.
  assert (H : forallb (fun i => (1 <=? address_count i) && (address_count i <=? 4))
                EEP_MAPPING = true) by reflexivity.
  rewrite forallb_forall in H. intros Hin. specialize (H _ Hin). lia.
Qed.

Lemma make_dev_obj_run device info i self :
  has_sender_eep info = true ->
  exists r,
    make_dev_obj device info i self = (Returned r, self)
    /\ device_record device info (sender_address self) i r.
Proof.
  unfold has_sender_eep, make_dev_obj, device_record, record_id,
    bind, read, ret, subscript.
  intros Hok.
  destruct (existsb (String.eqb (type info)) ["light"; "switch"; "cover"]%list)
    eqn:Eact;
    [destruct (sender_eep info) as [se|]; [|discriminate]|];
    (destruct (String.eqb (type info) "cover") eqn:Ecov;
     [apply String.eqb_eq in Ecov | apply String.eqb_neq in Ecov]);
    eexists; (split; [reflexivity|]);
    repeat split; try reflexivity; try discriminate; try contradiction;
    eauto.
Qed.

(** The loop of [add_device]: one record per offset, appended in order
    under the role of the profile, and nothing else touched. *)
Lemma add_device_loop device info :
  has_sender_eep info = true ->
  forall offsets self,
  exists self' recs,
    for_each offsets (add_device_at device info) self = (Returned tt, self')
    /\ records_of (type info) self'
       = (records_of (type info) self ++ recs)%list
    /\ Forall2 (device_record device info (sender_address self)) offsets recs
    /\ same_except_role (type info) self self'
    /\ sener_id_list self' = sener_id_list self
    /\ Permutation (all_records self') (recs ++ all_records self)%list.
Proof.
  intros Hok offsets.
  induction offsets as [|i offsets IH]; intros self.
  - exists self, []%list. simpl. rewrite app_nil_r.
    repeat split; auto.
  - destruct (make_dev_obj_run device info i self Hok) as (r & Hr & Hrec).
    destruct (append_record_run (type info) r self)
      as (self1 & Happ & Hrecs1 & (Hother1 & Hsend1 & Hlog1) & Hids1 & Hperm1).
    destruct (IH self1)
      as (self' & recs & Hloop & Hrecs & Hall & (Hother & Hsend & Hlog) & Hids
          & Hperm).
    exists self', (r :: recs)%list.
    split; [|split; [|split; [|split; [|split]]]].
    + simpl. unfold bind at 1. unfold add_device_at, bind at 1.
      rewrite Hr, Happ. exact Hloop.
    + rewrite Hrecs, Hrecs1, <- app_assoc. reflexivity.
    + constructor; [exact Hrec|]. now rewrite <- Hsend1.
    + split; [|split; congruence].
      intros ty' Hne. rewrite Hother, Hother1 by exact Hne. reflexivity.
    + congruence.
    + rewrite Hperm. simpl.
      rewrite (Permutation_app_head recs Hperm1).
      symmetry. apply Permutation_middle.
Qed.

Lemma NoDup_map_inj {A B} (f : A -> B) (l : list A) :
  (forall x y, f x = f y -> x = y) -> NoDup l -> NoDup (map f l).
Proof.
  intros Hinj H. induction H as [|x l Hx _ IH]; simpl; constructor.
  - rewrite in_map_iff. intros (y & Hy & Hin).
    apply Hinj in Hy. now subst.
  - exact IH.
Qed.

Lemma Forall2_map_eq {A B C} (P : A -> B -> Prop) (f : B -> C) (g : A -> C)
  (xs : list A) (ys : list B) :
  (forall x y, P x y -> f y = g x) ->
  Forall2 P xs ys -> map f ys = map g xs.
Proof.
  intros Hfg H. induction H as [|x y xs ys Hxy _ IH]; simpl.
  - reflexivity.
  - now rewrite (Hfg x y Hxy), IH.
Qed.

Lemma Forall2_Forall_r {A B} (P : A -> B -> Prop) (Q : B -> Prop)
  (xs : list A) (ys : list B) :
  (forall x y, In x xs -> P x y -> Q y) ->
  Forall2 P xs ys -> Forall Q ys.
Proof.
  intros HPQ H. induction H as [|x y xs ys Hxy _ IH]; constructor.
  - apply (HPQ x y); [now left | exact Hxy].
  - apply IH. intros x' y' Hin. apply HPQ. now right.
Qed.

Lemma range_length n : List.length (range n) = Z.to_nat n.
Proof. unfold range. now rewrite length_map, length_seq. Qed.

Lemma in_range i n : In i (range n) -> 0 <= i < n.
Proof.
  unfold range. rewrite in_map_iff. intros (k & <- & Hk).
  apply in_seq in Hk. lia.
Qed.

(** What a call of [add_device] does for a unit whose name has a profile. *)
Lemma add_device_known device info self :
  find_device_info (device_name device) = Some info ->
  exists self' recs,
    add_device device self = (Returned tt, self')
    /\ records_of (type info) self'
       = (records_of (type info) self ++ recs)%list
    /\ Forall2 (device_record device info (sender_address self))
         (range (address_count info)) recs
    /\ same_except_role (type info) self self'
    /\ sener_id_list self' = sener_id_list self
    /\ Permutation (all_records self') (recs ++ all_records self)%list.
Proof.
  intros Hfind. unfold add_device. rewrite Hfind.
  apply add_device_loop, EEP_MAPPING_has_sender_eep.
  now apply find_device_info_in in Hfind.
Qed.

Lemma add_device_unknown device self :
  find_device_info (device_name device) = None ->
  add_device device self = (Returned tt, self).
Proof. intros Hfind. unfold add_device. now rewrite Hfind. Qed.

(** C1. For a hardware unit whose type name has a profile with address span
    [N], [add_device] returns and appends exactly [N] records to the list of
    the profile's role (the lists of the other roles stay as they are); the
    [k]-th of them has the id formatted from [base + k], for
    [k = 0, ..., N - 1], and each of these ids is a four-octet hyphenated
    hexadecimal string (bus addresses are not negative). *)
Theorem add_device_expands_address_span device info self :
  find_device_info (device_name device) = Some info ->
  let N := Z.to_nat (address_count info) in
  let base := device_address device in
  exists self' recs,
    add_device device self = (Returned tt, self')
    /\ records_of (type info) self'
       = (records_of (type info) self ++ recs)%list
    /\ (forall ty, ty <> type info ->
          Dict.get ty (eltako self') = Dict.get ty (eltako self))
    /\ List.length recs = N
    /\ map record_id recs
       = map (fun k => Some (get_formatted_address (base + Z.of_nat k)))
             (seq 0 N)
    /\ (0 <= base ->
        Forall (fun r => exists s, record_id r = Some s
                                   /\ is_octet_address s = true) recs).
Proof.
  intros Hfind N base.
  destruct (add_device_known device info self Hfind)
    as (self' & recs & Hrun & Hrecs & Hall & (Hother & _) & _ & _).
  exists self', recs.
  split; [exact Hrun|]. split; [exact Hrecs|]. split; [exact Hother|].
  split; [|split].
  - rewrite <- (Forall2_length Hall). apply range_length.
  - rewrite (Forall2_map_eq _ record_id
               (fun i => Some (get_formatted_address (base + i))) _ _
               (fun i r H => proj1 H) Hall).
    unfold range. now rewrite map_map.
  - intros Hbase.
    apply (Forall2_Forall_r (device_record device info (sender_address self))
             _ (range (address_count info)) recs); [|exact Hall].
    intros i r Hin [Hid _]. apply in_range in Hin.
    exists (get_formatted_address (base + i)). split; [exact Hid|].
    apply get_formatted_address_nonneg_shape. lia.
Qed.

Lemma add_device_expands_address_span_witness :
  exists self' recs,
    add_device {| device_name := "FSR14_4x"; device_address := 0x20 |}
      (init 0xB000 false) = (Returned tt, self')
    /\ records_of "light" self' = recs
    /\ List.length recs = 4%nat
    /\ map record_id recs
       = [Some "00-00-00-20"; Some "00-00-00-21"; Some "00-00-00-22";
          Some "00-00-00-23"]%list
    /\ Forall (fun r => exists s, record_id r = Some s
                                  /\ is_octet_address s = true) recs.
Proof.
  destruct (add_device_expands_address_span
              {| device_name := "FSR14_4x"; device_address := 0x20 |}
              (actuator_entry "FSR14_4x" "M5-38-08" "A5-38-08" "light"
                 "Eltako relay" 4)
              (init 0xB000 false) eq_refl)
    as (self' & recs & Hrun & Hrecs & _ & Hlen & Hids & Hshape).
  exists self', recs.
  split; [exact Hrun|]. split; [exact Hrecs|]. split; [exact Hlen|].
  split; [exact Hids|]. apply Hshape. simpl. lia.
Defined.

(** C7. For a hardware unit whose type name has no entry in the static
    profile table, [add_device] returns without raising, produces no record
    and leaves the accumulator exactly as it was. *)
Theorem add_device_unknown_hardware_noop device self :
  (forall info, In info EEP_MAPPING -> hw_type info <> device_name device) ->
  add_device device self = (Returned tt, self)
  /\ all_records (snd (add_device device self)) = all_records self.
Proof.
  intros Hno.
  assert (Hfind : find_device_info (device_name device) = None).
  { destruct (find_device_info (device_name device)) as [info|] eqn:E;
      [|reflexivity].
    apply find_device_info_in in E. destruct E as [Hin Hname].
    destruct (Hno info Hin Hname). }
  rewrite (add_device_unknown device self Hfind). split; reflexivity.
Qed.

Lemma add_device_unknown_hardware_noop_witness :
  add_device {| device_name := "FAM14"; device_address := 0xFF |}
    (init 0xB000 true) = (Returned tt, init 0xB000 true).
Proof.
  apply (add_device_unknown_hardware_noop
           {| device_name := "FAM14"; device_address := 0xFF |}
           (init 0xB000 true)).
  intros info Hin. simpl in Hin.
  repeat (destruct Hin as [<-|Hin]; [discriminate|]). contradiction.
Defined.

(** C8. Every record that [add_device] produces for a profile of the cover
    role carries [device_class = "shutter"], [time_closes = 24] and
    [time_opens = 25], whatever the base address. *)
Theorem add_device_cover_fields device info self :
  find_device_info (device_name device) = Some info ->
  type info = "cover" ->
  exists self' recs,
    add_device device self = (Returned tt, self')
    /\ records_of "cover" self' = (records_of "cover" self ++ recs)%list
    /\ List.length recs = Z.to_nat (address_count info)
    /\ Forall (fun r =>
                 Dict.get "device_class" r = Some (VStr "shutter")
                 /\ Dict.get "time_closes" r = Some (VInt 24)
                 /\ Dict.get "time_opens" r = Some (VInt 25)) recs.
Proof.
  intros Hfind Hcover.
  destruct (add_device_known device info self Hfind)
    as (self' & recs & Hrun & Hrecs & Hall & _).
  exists self', recs. rewrite Hcover in Hrecs.
  split; [exact Hrun|]. split; [exact Hrecs|]. split.
  - rewrite <- (Forall2_length Hall). apply range_length.
  - apply (Forall2_Forall_r _ _ _ _
             (fun i r _ H => proj2 (proj2 (proj2 (proj2 H))) Hcover) Hall).
Qed.

Lemma add_device_cover_fields_witness :
  exists self' recs,
    add_device {| device_name := "FSB14"; device_address := 7 |}
      (init 0xB000 false) = (Returned tt, self')
    /\ records_of "cover" self' = recs
    /\ List.length recs = 1%nat
    /\ Forall (fun r =>
                 Dict.get "device_class" r = Some (VStr "shutter")
                 /\ Dict.get "time_closes" r = Some (VInt 24)
                 /\ Dict.get "time_opens" r = Some (VInt 25)) recs.
Proof.
  destruct (add_device_cover_fields
              {| device_name := "FSB14"; device_address := 7 |}
              (actuator_entry "FSB14" "G5-3F-7F" "H5-3F-7F" "cover"
                 "Eltako cover" 1)
              (init 0xB000 false) eq_refl eq_refl)
    as (self' & recs & Hrun & Hrecs & Hlen & Hall).
  exists self', recs. repeat split; assumption.
Defined.

(** C4. The unit [FSR14_x2] at base address [0x100], with the default
    sender address [0x200], yields exactly two records, both under the
    light role: the first with the id formatted from [0x100], the profile
    ["M5-38-08"] and the sender [{id: formatted 0x300, eep: "A5-38-08"}],
    the second with both addresses shifted by one. *)
Theorem add_device_FSR14_x2_example (log : bool) :
  exists r1 r2,
    add_device {| device_name := "FSR14_x2"; device_address := 0x100 |}
      (init 0x200 log)
    = (Returned tt,
       {| eltako := [("light", [r1; r2])]%list; sener_id_list := []%list;
          sender_address := 0x200; export_logger := log |})
    /\ Dict.get "id" r1 = Some (VStr (get_formatted_address 0x100))
    /\ Dict.get "eep" r1 = Some (VStr "M5-38-08")
    /\ Dict.get "sender" r1
       = Some (VDict [("id", get_formatted_address 0x300);
                      ("eep", "A5-38-08")]%list)
    /\ Dict.get "id" r2 = Some (VStr (get_formatted_address 0x101))
    /\ Dict.get "eep" r2 = Some (VStr "M5-38-08")
    /\ Dict.get "sender" r2
       = Some (VDict [("id", get_formatted_address 0x301);
                      ("eep", "A5-38-08")]%list)
    /\ get_formatted_address 0x100 = "00-00-01-00"
    /\ get_formatted_address 0x300 = "00-00-03-00".
Proof.
  do 2 eexists. split; [vm_compute; reflexivity|].
  repeat split; reflexivity.
Qed.

(** ** Bytes and sensor ids *)

Lemma byte_val_range b : 0 <= byte_val b < 256.
Proof.
  unfold byte_val. pose proof (Byte.to_N_bounded b). lia.
Qed.

Lemma byte_val_inj a b : byte_val a = byte_val b -> a = b.
Proof.
  unfold byte_val. intros H. apply N2Z.inj in H.
  pose proof (Byte.of_to_N a) as Ha. rewrite H, Byte.of_to_N in Ha.
  congruence.
Qed.

Lemma bytes_eqb_eq a : forall b, bytes_eqb a b = true <-> a = b.
Proof.
  induction a as [|x a IH]; intros [|y b]; simpl; split; intros H;
    try reflexivity; try discriminate.
  - apply andb_true_iff in H. destruct H as [Hxy Hab].
    apply Byte.byte_dec_bl in Hxy. apply IH in Hab. congruence.
  - injection H as -> ->. apply andb_true_iff. split.
    + now apply Byte.byte_dec_lb.
    + now apply IH.
Qed.

Lemma existsb_bytes_eqb a l :
  existsb (bytes_eqb a) l = true <-> In a l.
Proof.
  rewrite existsb_exists. split.
  - intros (x & Hin & Heq). apply bytes_eqb_eq in Heq. now subst.
  - intros Hin. exists a. split; [exact Hin | now apply bytes_eqb_eq].
Qed.

Lemma upper_app s t : upper (s ++ t) = upper s ++ upper t.
Proof. induction s as [|c s IH]; simpl; [reflexivity | now rewrite IH]. Qed.

Lemma replace_char_app old new s t :
  replace_char old new (s ++ t)
  = replace_char old new s ++ replace_char old new t.
Proof. induction s as [|c s IH]; simpl; [reflexivity | now rewrite IH]. Qed.

(** One byte of a sensor id: its two nibbles in upper case. *)
Lemma byte_hex_upper b :
  upper (replace_char " " "-" (byte_hex b))
  = String (upper_hex (byte_val b / 16))
      (String (upper_hex (byte_val b mod 16)) EmptyString).
Proof. destruct b; reflexivity. Qed.

Lemma sensor_address_string_nil : sensor_address_string [] = "".
Proof. reflexivity. Qed.

Lemma sensor_address_string_one b :
  sensor_address_string [b]
  = String (upper_hex (byte_val b / 16))
      (String (upper_hex (byte_val b mod 16)) EmptyString).
Proof. unfold sensor_address_string, b2a. simpl. apply byte_hex_upper. Qed.

Lemma sensor_address_string_more b b' rest :
  sensor_address_string (b :: b' :: rest)
  = String (upper_hex (byte_val b / 16))
      (String (upper_hex (byte_val b mod 16))
         (String "-" (sensor_address_string (b' :: rest)))).
Proof.
  unfold sensor_address_string, b2a.
  change (join " " (map byte_hex (b :: b' :: rest)))
    with (byte_hex b ++ " " ++ join " " (map byte_hex (b' :: rest))).
  rewrite replace_char_app, upper_app, byte_hex_upper. reflexivity.
Qed.

Lemma upper_hex_pair_inj a b :
  upper_hex (byte_val a / 16) = upper_hex (byte_val b / 16) ->
  upper_hex (byte_val a mod 16) = upper_hex (byte_val b mod 16) ->
  a = b.
Proof.
  intros Hhi Hlo.
  pose proof (byte_val_range a) as Ra. pose proof (byte_val_range b) as Rb.
  apply upper_hex_inj in Hhi;
    [|split; [apply Z.div_pos | apply Z.div_lt_upper_bound]; lia ..].
  apply upper_hex_inj in Hlo; [|apply Z.mod_pos_bound; lia ..].
  apply byte_val_inj.
  rewrite (Z.div_mod (byte_val a) 16), (Z.div_mod (byte_val b) 16) by lia.
  congruence.
Qed.

(** Two source addresses with the same sensor id are the same address. *)
Lemma sensor_address_string_inj a : forall b,
  sensor_address_string a = sensor_address_string b -> a = b.
Proof.
  induction a as [|x [|x' a] IH]; intros [|y [|y' b]];
    rewrite ?sensor_address_string_nil, ?sensor_address_string_one,
      ?sensor_address_string_more;
    intros H; try reflexivity; try discriminate H.
  - injection H as Hhi Hlo. f_equal. now apply upper_hex_pair_inj.
  - injection H as Hhi Hlo Hrest. f_equal.
    + now apply upper_hex_pair_inj.
    + now apply IH.
Qed.

(** ** [add_sensor] *)

Section ClassifierFacts.

Variable parse : list byte -> option ESP2Message.

Lemma add_sensor_ignored msg self :
  reaches_org_lookup msg self = false ->
  add_sensor parse msg self = (Returned tt, self).
Proof.
  unfold reaches_org_lookup, add_sensor, bind, read, ret.
  destruct (existsb (msg_type_eqb (msg_class msg)) SENSOR_MESSAGE_TYPES);
    [|reflexivity].
  destruct (has_outgoing msg); [|reflexivity].
  destruct (existsb (bytes_eqb (address msg)) (sener_id_list self));
    [reflexivity | discriminate].
Qed.

Lemma add_sensor_raises msg self :
  reaches_org_lookup msg self = true ->
  org_mapping_get (org msg) = None ->
  add_sensor parse msg self
  = (Raised (KeyError (str_of_int (org msg))), self).
Proof.
  unfold reaches_org_lookup, add_sensor.
  intros Hr Hnone.
  apply andb_true_iff in Hr. destruct Hr as [Hr Hnew].
  apply andb_true_iff in Hr. destruct Hr as [-> ->].
  unfold bind at 1. unfold read at 1. cbv beta iota. rewrite Hnew.
  unfold bind at 1. rewrite Hnone. reflexivity.
Qed.

Lemma add_sensor_records msg self info :
  reaches_org_lookup msg self = true ->
  org_mapping_get (org msg) = Some info ->
  exists self' r,
    add_sensor parse msg self = (Returned tt, self')
    /\ record_id r = Some (sensor_address_string (address msg))
    /\ records_of (org_type info) self'
       = (records_of (org_type info) self ++ [r])%list
    /\ same_except_role (org_type info) self self'
    /\ sener_id_list self' = (sener_id_list self ++ [address msg])%list
    /\ Permutation (all_records self') (r :: all_records self).
Proof.
  unfold reaches_org_lookup, add_sensor.
  intros Hr Hinfo.
  apply andb_true_iff in Hr. destruct Hr as [Hr Hnew].
  apply andb_true_iff in Hr. destruct Hr as [-> ->].
  unfold bind at 1. unfold read at 1. cbv beta iota. rewrite Hnew.
  unfold bind at 1. rewrite Hinfo. unfold subscript, ret. cbv beta iota.
  match goal with
  | |- context [append_record _ ?s] => set (sensor := s)
  end.
  destruct (append_record_run (org_type info) sensor self)
    as (self1 & Happ & Hrecs & (Hother & Hsend & Hlog) & Hids & Hperm).
  unfold bind at 1. rewrite Happ. unfold bind, read, write.
  eexists. exists sensor. split; [reflexivity|].
  split.
  { subst sensor. destruct (String.eqb (org_type info) "binary_sensor");
      reflexivity. }
  unfold records_of, same_except_role, all_records in *. simpl.
  repeat split; try assumption. now rewrite Hids.
Qed.

End ClassifierFacts.

(** ** The dedup invariant *)

Section Dedup.

Variable parse : list byte -> option ESP2Message.

Lemma dedup_invariant_init sender log : dedup_invariant (init sender log).
Proof. split; [constructor | apply perm_nil]. Qed.

Lemma add_sensor_cases msg self :
  add_sensor parse msg self = (Returned tt, self)
  \/ (exists key, add_sensor parse msg self = (Raised (KeyError key), self))
  \/ (exists info self' r,
        reaches_org_lookup msg self = true
        /\ org_mapping_get (org msg) = Some info
        /\ add_sensor parse msg self = (Returned tt, self')
        /\ record_id r = Some (sensor_address_string (address msg))
        /\ records_of (org_type info) self'
           = (records_of (org_type info) self ++ [r])%list
        /\ same_except_role (org_type info) self self'
        /\ sener_id_list self' = (sener_id_list self ++ [address msg])%list
        /\ Permutation (all_records self') (r :: all_records self)).
Proof.
  destruct (reaches_org_lookup msg self) eqn:Hr.
  - destruct (org_mapping_get (org msg)) as [info|] eqn:Hinfo.
    + right; right.
      destruct (add_sensor_records parse msg self info Hr Hinfo)
        as (self' & r & H).
      exists info, self', r. auto.
    + right; left. eexists. now apply add_sensor_raises.
  - left. now apply add_sensor_ignored.
Qed.

Lemma reaches_org_lookup_new msg self :
  reaches_org_lookup msg self = true -> ~ In (address msg) (sener_id_list self).
Proof.
  unfold reaches_org_lookup. intros H Hin.
  apply andb_true_iff in H. destruct H as [_ H].
  apply existsb_bytes_eqb in Hin. rewrite Hin in H. discriminate.
Qed.

Lemma add_sensor_preserves_invariant msg self :
  dedup_invariant self -> dedup_invariant (snd (add_sensor parse msg self)).
Proof.
  intros [Hnodup Hperm].
  destruct (add_sensor_cases msg self)
    as [-> | [[key ->] | (info & self' & r & Hr & _ & -> & Hid & _ & _ & Hids
                          & Hall)]];
    [split; assumption .. |].
  simpl. apply reaches_org_lookup_new in Hr. split.
  - rewrite Hids.
    apply (Permutation_NoDup (Permutation_cons_append _ _)).
    now constructor.
  - rewrite Hids, (Permutation_map record_id Hall). simpl. rewrite Hid.
    rewrite map_app. simpl.
    rewrite <- Permutation_cons_append. now constructor.
Qed.

Lemma feed_sensors_invariant msgs : forall self,
  dedup_invariant self -> dedup_invariant (feed_sensors parse msgs self).
Proof.
  induction msgs as [|m msgs IH]; intros self Hinv; [exact Hinv|].
  apply IH. now apply add_sensor_preserves_invariant.
Qed.

Lemma dedup_invariant_distinct_ids self :
  dedup_invariant self -> NoDup (map record_id (all_records self)).
Proof.
  intros [Hnodup Hperm].
  apply (Permutation_NoDup (Permutation_sym Hperm)).
  apply NoDup_map_inj; [|exact Hnodup].
  intros a b Hab. injection Hab as Hab. now apply sensor_address_string_inj.
Qed.

Lemma is_sensor_telegram_reaches msg self :
  is_sensor_telegram msg = true ->
  ~ In (address msg) (sener_id_list self) ->
  reaches_org_lookup msg self = true
  /\ exists info, org_mapping_get (org msg) = Some info.
Proof.
  unfold is_sensor_telegram, reaches_org_lookup. intros H Hnew.
  apply andb_true_iff in H. destruct H as [-> Hmap].
  destruct (org_mapping_get (org msg)) as [info|]; [|discriminate].
  split; [|eauto]. simpl.
  destruct (existsb (bytes_eqb (address msg)) (sener_id_list self)) eqn:E;
    [|reflexivity].
  apply existsb_bytes_eqb in E. contradiction.
Qed.

(** A sensor telegram with a new address adds one record and its address. *)
Lemma add_sensor_new msg self :
  is_sensor_telegram msg = true ->
  ~ In (address msg) (sener_id_list self) ->
  exists self',
    add_sensor parse msg self = (Returned tt, self')
    /\ List.length (all_records self') = S (List.length (all_records self))
    /\ sener_id_list self' = (sener_id_list self ++ [address msg])%list.
Proof.
  intros Hs Hnew.
  destruct (is_sensor_telegram_reaches msg self Hs Hnew) as [Hr [info Hinfo]].
  destruct (add_sensor_records parse msg self info Hr Hinfo)
    as (self' & r & Hrun & _ & _ & _ & Hids & Hall).
  exists self'. split; [exact Hrun|]. split; [|exact Hids].
  now rewrite (Permutation_length Hall).
Qed.

(** A telegram whose address is already recorded changes nothing. *)
Lemma add_sensor_seen msg self :
  In (address msg) (sener_id_list self) ->
  add_sensor parse msg self = (Returned tt, self).
Proof.
  intros Hin. apply add_sensor_ignored. unfold reaches_org_lookup.
  apply existsb_bytes_eqb in Hin. rewrite Hin. simpl. apply andb_false_r.
Qed.

End Dedup.

(** ** Order on addresses *)

Lemma be_value_acc l : forall acc,
  fold_left (fun acc b => acc * 256 + byte_val b) l acc
  = acc * 256 ^ Z.of_nat (List.length l) + be_value l.
Proof.
  unfold be_value.
  induction l as [|x l IH]; intros acc.
  - simpl. lia.
  - cbn [fold_left List.length]. rewrite IH, (IH (0 * 256 + byte_val x)).
    rewrite Nat2Z.inj_succ, Z.pow_succ_r by lia. ring.
Qed.

Lemma be_value_cons x l :
  be_value (x :: l) = byte_val x * 256 ^ Z.of_nat (List.length l) + be_value l.
Proof.
  unfold be_value at 1. cbn [fold_left]. rewrite be_value_acc. ring.
Qed.

Lemma be_value_bound l : 0 <= be_value l < 256 ^ Z.of_nat (List.length l).
Proof.
  induction l as [|x l IH].
  - unfold be_value. simpl. lia.
  - rewrite be_value_cons. cbn [List.length].
    rewrite Nat2Z.inj_succ, Z.pow_succ_r by lia.
    pose proof (byte_val_range x). nia.
Qed.

(** On addresses of the same length the order of [bytes] is the numeric
    order of the big-endian values. *)
Lemma bytes_ltb_be a : forall b,
  List.length a = List.length b ->
  (bytes_ltb a b = true <-> be_value a < be_value b).
Proof.
  induction a as [|x a IH]; intros [|y b] Hlen; try discriminate Hlen.
  - simpl. unfold be_value. simpl. split; [discriminate | lia].
  - injection Hlen as Hlen. specialize (IH b Hlen).
    rewrite !be_value_cons, <- Hlen. cbn [bytes_ltb].
    pose proof (be_value_bound a) as Ba.
    pose proof (be_value_bound b) as Bb. rewrite <- Hlen in Bb.
    pose proof (byte_val_range x). pose proof (byte_val_range y).
    set (P := 256 ^ Z.of_nat (List.length a)) in *.
    rewrite orb_true_iff, andb_true_iff, Z.ltb_lt, Z.eqb_eq, IH.
    split.
    + intros [Hlt | [Heq Hlt]]; nia.
    + intros Hlt. destruct (Z.lt_trichotomy (byte_val x) (byte_val y))
        as [Hc | [Hc | Hc]]; [left; exact Hc | right; split; nia | nia].
Qed.

Lemma bytes_leb_be a b :
  List.length a = List.length b ->
  (bytes_leb a b = true <-> be_value a <= be_value b).
Proof.
  intros Hlen. unfold bytes_leb. rewrite negb_true_iff.
  pose proof (bytes_ltb_be b a (eq_sym Hlen)) as H.
  destruct (bytes_ltb b a).
  - split; [discriminate|]. intros Hle.
    assert (be_value b < be_value a) by now apply H. lia.
  - split; [intros _ | reflexivity].
    destruct (Z.le_gt_cases (be_value a) (be_value b)) as [Hle|Hgt];
      [exact Hle|].
    assert (false = true) by (apply H; lia). discriminate.
Qed.

Lemma in_reserved_range a :
  List.length a = 4%nat ->
  (bytes_leb min_address a && bytes_leb a max_address = true
   <-> 0x00001001 <= be_value a <= 0x00001489).
Proof.
  intros Hlen. rewrite andb_true_iff.
  rewrite (bytes_leb_be min_address a), (bytes_leb_be a max_address)
    by (rewrite Hlen; reflexivity).
  reflexivity.
Qed.

(** ** The claims on the sensor side *)

(** C5. For a telegram of the 1-byte family whose reinterpretation as a
    checksummed frame succeeds, the classifier returns the label of the
    switch controller exactly when the reinterpreted (four-byte) address
    lies between [0x00001001] and [0x00001489] inclusive, and the label for
    unknown, ["???"], when it lies outside. *)
Theorem guess_1bs_reserved_range
  (parse : list byte -> option ESP2Message) (msg _msg : ESP2Message) :
  msg_class msg = Regular1BSMessage ->
  reinterpreted parse msg = Some _msg ->
  List.length (address _msg) = 4%nat ->
  (guess_sensor_type_by_address parse msg = "FTS14EM switch"
   <-> 0x00001001 <= be_value (address _msg) <= 0x00001489)
  /\ (~ 0x00001001 <= be_value (address _msg) <= 0x00001489 ->
      guess_sensor_type_by_address parse msg = "???").
Proof.
  intros Hclass Hre Hlen.
  pose proof (in_reserved_range (address _msg) Hlen) as Hrange.
  unfold guess_sensor_type_by_address, guess_1bs.
  rewrite Hclass, Hre. cbn [msg_type_eqb andb].
  destruct (bytes_leb min_address (address _msg)
            && bytes_leb (address _msg) max_address).
  - split; [split; [intros _; now apply Hrange | reflexivity]|].
    intros Hout. destruct Hout. now apply Hrange.
  - split; [|reflexivity].
    split; [discriminate|]. intros Hin. apply Hrange in Hin. discriminate.
Qed.

Lemma guess_1bs_reserved_range_witness :
  guess_sensor_type_by_address parse_1bs_frame (sample_1bs x05)
  = "FTS14EM switch"
  /\ guess_sensor_type_by_address parse_1bs_frame
       {| msg_class := Regular1BSMessage; org := 6;
          address := [x00; x00; x20; x05]%list;
          body := [x0b; x06; x09; x00; x00; x00; x00; x00; x20; x05; x30]%list;
          has_outgoing := true |}
     = "???".
Proof.
  split.
  - apply (proj1 (guess_1bs_reserved_range parse_1bs_frame (sample_1bs x05)
             {| msg_class := Regular1BSMessage; org := 6;
                address := [x00; x00; x10; x05]%list;
                body := [x0b; x06; x09; x00; x00; x00; x00; x00; x10; x05;
                         x00]%list;
                has_outgoing := true |}
             eq_refl eq_refl eq_refl)).
    vm_compute. split; discriminate.
  - apply (proj2 (guess_1bs_reserved_range parse_1bs_frame
             {| msg_class := Regular1BSMessage; org := 6;
                address := [x00; x00; x20; x05]%list;
                body := [x0b; x06; x09; x00; x00; x00; x00; x00; x20; x05;
                         x30]%list;
                has_outgoing := true |}
             {| msg_class := Regular1BSMessage; org := 6;
                address := [x00; x00; x20; x05]%list;
                body := [x0b; x06; x09; x00; x00; x00; x00; x00; x20; x05;
                         x00]%list;
                has_outgoing := true |}
             eq_refl eq_refl eq_refl)).
    vm_compute. intros [_ H]. apply H. reflexivity.
Defined.


(** C6. A telegram that does not carry the outgoing marker produces no
    record: [add_sensor] returns and leaves the accumulator exactly as it
    was, whatever the class, the address and the organization code. *)
Theorem add_sensor_without_outgoing
  (parse : list byte -> option ESP2Message) (msg : ESP2Message)
  (self : HaConfig) :
  has_outgoing msg = false ->
  add_sensor parse msg self = (Returned tt, self).
Proof.
  intros Hout. apply add_sensor_ignored. unfold reaches_org_lookup.
  rewrite Hout, andb_false_r. reflexivity.
Qed.

Lemma add_sensor_without_outgoing_witness :
  add_sensor parse_1bs_frame sample_polling (init 0xB000 false)
  = (Returned tt, init 0xB000 false).
Proof.
  apply (add_sensor_without_outgoing parse_1bs_frame sample_polling
           (init 0xB000 false)).
  reflexivity.
Defined.

(** C2. However many telegrams are fed to [add_sensor] of a fresh
    accumulator, no two records share a source address: the recorded
    addresses are pairwise distinct, the ids of the records are exactly
    their formatted forms, and so the ids are pairwise distinct. Two sensor
    telegrams with the same, not yet recorded address produce exactly one
    record; two with different, not yet recorded addresses produce two. *)
Theorem add_sensor_dedup (parse : list byte -> option ESP2Message) :
  (forall sender log msgs,
     let self := feed_sensors parse msgs (init sender log) in
     NoDup (sener_id_list self)
     /\ Permutation (map record_id (all_records self))
          (map (fun a => Some (sensor_address_string a)) (sener_id_list self))
     /\ NoDup (map record_id (all_records self)))
  /\ (forall self m1 m2,
        is_sensor_telegram m1 = true -> is_sensor_telegram m2 = true ->
        ~ In (address m1) (sener_id_list self) ->
        address m2 = address m1 ->
        List.length (all_records (feed_sensors parse [m1; m2] self))
        = S (List.length (all_records self)))
  /\ (forall self m1 m2,
        is_sensor_telegram m1 = true -> is_sensor_telegram m2 = true ->
        ~ In (address m1) (sener_id_list self) ->
        ~ In (address m2) (sener_id_list self) ->
        address m2 <> address m1 ->
        List.length (all_records (feed_sensors parse [m1; m2] self))
        = S (S (List.length (all_records self)))).
Proof.
  split; [|split].
  - intros sender log msgs self.
    assert (Hinv : dedup_invariant self)
      by apply feed_sensors_invariant, dedup_invariant_init.
    destruct Hinv as [Hnodup Hperm]. split; [exact Hnodup|].
    split; [exact Hperm|].
    apply dedup_invariant_distinct_ids. split; assumption.
  - intros self m1 m2 Hs1 Hs2 Hnew Hsame.
    destruct (add_sensor_new parse m1 self Hs1 Hnew)
      as (self1 & Hrun1 & Hlen1 & Hids1).
    unfold feed_sensors. simpl. rewrite Hrun1. simpl.
    rewrite add_sensor_seen; [exact Hlen1|].
    rewrite Hids1, Hsame. apply in_or_app. right. now left.
  - intros self m1 m2 Hs1 Hs2 Hnew1 Hnew2 Hdiff.
    destruct (add_sensor_new parse m1 self Hs1 Hnew1)
      as (self1 & Hrun1 & Hlen1 & Hids1).
    destruct (add_sensor_new parse m2 self1 Hs2) as (self2 & Hrun2 & Hlen2 & _).
    { rewrite Hids1. intros Hin. apply in_app_or in Hin.
      destruct Hin as [Hin | [Hin | []]]; [contradiction | congruence]. }
    unfold feed_sensors. simpl. rewrite Hrun1. simpl. rewrite Hrun2. simpl.
    congruence.
Qed.

Lemma add_sensor_dedup_witness :
  List.length (all_records
     (feed_sensors parse_1bs_frame [sample_1bs x05; sample_1bs x05]
        (init 0xB000 false))) = 1%nat
  /\ List.length (all_records
       (feed_sensors parse_1bs_frame [sample_1bs x05; sample_1bs x06]
          (init 0xB000 false))) = 2%nat.
Proof.
  split.
  - apply (proj1 (proj2 (add_sensor_dedup parse_1bs_frame))
             (init 0xB000 false) (sample_1bs x05) (sample_1bs x05));
      [reflexivity | reflexivity | intros [] | reflexivity].
  - apply (proj2 (proj2 (add_sensor_dedup parse_1bs_frame))
             (init 0xB000 false) (sample_1bs x05) (sample_1bs x06));
      [reflexivity | reflexivity | intros [] | intros [] | discriminate].
Defined.






(** C10. [add_device] leaves the dedup list and the default sender address
    as they are, [add_sensor] leaves the default sender address as it is and
    appends at most one record, and each call appends to the list of at most
    one role: the lists of all other roles are as before. *)
Theorem add_device_add_sensor_frame
  (parse : list byte -> option ESP2Message) :
  (forall device self,
     let self' := snd (add_device device self) in
     sener_id_list self' = sener_id_list self
     /\ sender_address self' = sender_address self
     /\ exists ty recs,
          records_of ty self' = (records_of ty self ++ recs)%list
          /\ forall ty', ty' <> ty ->
               Dict.get ty' (eltako self') = Dict.get ty' (eltako self))
  /\ (forall msg self,
        let self' := snd (add_sensor parse msg self) in
        sender_address self' = sender_address self
        /\ exists ty recs,
             (List.length recs <= 1)%nat
             /\ records_of ty self' = (records_of ty self ++ recs)%list
             /\ forall ty', ty' <> ty ->
                  Dict.get ty' (eltako self') = Dict.get ty' (eltako self)).
Proof.
  split.
  - intros device self self'. subst self'.
    destruct (find_device_info (device_name device)) as [info|] eqn:E.
    + destruct (add_device_known device info self E)
        as (self' & recs & -> & Hrecs & _ & (Hother & Hsend & _) & Hids & _).
      simpl. split; [exact Hids|]. split; [exact Hsend|].
      exists (type info), recs. split; assumption.
    + rewrite (add_device_unknown device self E). simpl.
      split; [reflexivity|]. split; [reflexivity|].
      exists "", []%list. rewrite app_nil_r. split; reflexivity.
  - intros msg self self'. subst self'.
    destruct (add_sensor_cases parse msg self)
      as [-> | [[key ->] | (info & self' & r & _ & _ & -> & _ & Hrecs
                            & (Hother & Hsend & _) & _)]]; simpl.
    + split; [reflexivity|]. exists "", []%list. rewrite app_nil_r.
      repeat split; auto.
    + split; [reflexivity|]. exists "", []%list. rewrite app_nil_r.
      repeat split; auto.
    + split; [exact Hsend|]. exists (org_type info), [r]%list.
      repeat split; auto.
Qed.

Lemma add_device_add_sensor_frame_witness :
  sener_id_list
    (snd (add_device {| device_name := "FSB14"; device_address := 7 |}
            (init 0xB000 false))) = []%list
  /\ sender_address
       (snd (add_sensor parse_1bs_frame (sample_1bs x05) (init 0xB000 false)))
     = 0xB000.
Proof.
  split.
  - exact (proj1 (proj1 (add_device_add_sensor_frame parse_1bs_frame)
                    {| device_name := "FSB14"; device_address := 7 |}
                    (init 0xB000 false))).
  - exact (proj1 (proj2 (add_device_add_sensor_frame parse_1bs_frame)
                    (sample_1bs x05) (init 0xB000 false))).
Defined.

(** * Further properties of the discovery tool *)

(** ** The classifier beyond the first rule *)

(** X1. A rocker telegram is labelled a wall switch exactly when its four-byte
    address is numerically above [0xFEDB0000]; at or below it the label is
    the one for unknown. *)
Theorem guess_rps_threshold
  (parse : list byte -> option ESP2Message) (msg : ESP2Message) :
  msg_class msg = RPSMessage ->
  List.length (address msg) = 4%nat ->
  (guess_sensor_type_by_address parse msg = "Wall Switch /Rocker Switch"
   <-> 0xFEDB0000 < be_value (address msg))
  /\ (be_value (address msg) <= 0xFEDB0000 ->
      guess_sensor_type_by_address parse msg = "???").
Proof.
  intros Hclass Hlen.
  pose proof (bytes_ltb_be [xfe; xdb; x00; x00]%list (address msg)) as H.
  rewrite Hlen in H. specialize (H eq_refl).
  change (be_value [xfe; xdb; x00; x00]%list) with 0xFEDB0000 in H.
  unfold guess_sensor_type_by_address. rewrite Hclass.
  cbn [msg_type_eqb andb].
  destruct (bytes_ltb [xfe; xdb; x00; x00]%list (address msg)).
  - split; [split; [intros _; now apply H | reflexivity]|].
    intros Hle. assert (0xFEDB0000 < be_value (address msg)) by now apply H.
    lia.
  - split; [|reflexivity]. split; [discriminate|].
    intros Hlt. apply H in Hlt. discriminate.
Qed.

Lemma guess_rps_threshold_witness :
  guess_sensor_type_by_address parse_1bs_frame
    {| msg_class := RPSMessage; org := 5;
       address := [xfe; xdb; x00; x01]%list; body := []%list;
       has_outgoing := true |}
  = "Wall Switch /Rocker Switch".
Proof.
  apply (proj1 (guess_rps_threshold parse_1bs_frame
                  {| msg_class := RPSMessage; org := 5;
                     address := [xfe; xdb; x00; x01]%list; body := []%list;
                     has_outgoing := true |} eq_refl eq_refl)).
  reflexivity.
Defined.

(** X2. A failure of the reinterpretation of a 1-byte telegram is swallowed: the
    label is then the one for unknown, and a 1-byte telegram never gets
    another label than the switch controller's or that one. *)
Theorem guess_1bs_failure_swallowed
  (parse : list byte -> option ESP2Message) (msg : ESP2Message) :
  msg_class msg = Regular1BSMessage ->
  (reinterpreted parse msg = None ->
   guess_sensor_type_by_address parse msg = "???")
  /\ (guess_sensor_type_by_address parse msg = "FTS14EM switch"
      \/ guess_sensor_type_by_address parse msg = "???").
Proof.
  intros Hclass. unfold guess_sensor_type_by_address, guess_1bs.
  rewrite Hclass. cbn [msg_type_eqb andb].
  destruct (reinterpreted parse msg) as [_msg|].
  - split; [discriminate|].
    destruct (bytes_leb min_address (address _msg)
              && bytes_leb (address _msg) max_address); auto.
  - split; auto.
Qed.

Lemma guess_1bs_failure_swallowed_witness :
  guess_sensor_type_by_address (fun _ => None) (sample_1bs x05) = "???".
Proof.
  apply (proj1 (guess_1bs_failure_swallowed (fun _ => None) (sample_1bs x05)
                  eq_refl)).
  reflexivity.
Defined.

(** X3. The label tells the class: only a 1-byte telegram is labelled a switch
    controller, only a rocker telegram a wall switch, and a telegram is
    labelled a multi-sensor exactly when it is a 4-byte telegram, whatever
    its address; the bus-wrapped classes always get the label for unknown. *)
Theorem guess_label_tells_class
  (parse : list byte -> option ESP2Message) (msg : ESP2Message) :
  (guess_sensor_type_by_address parse msg = "FTS14EM switch" ->
   msg_class msg = Regular1BSMessage)
  /\ (guess_sensor_type_by_address parse msg = "Wall Switch /Rocker Switch" ->
      msg_class msg = RPSMessage)
  /\ (guess_sensor_type_by_address parse msg = "Multi-Sensor ? " <->
      msg_class msg = Regular4BSMessage)
  /\ (In (msg_class msg) [EltakoWrappedRPS; EltakoWrapped4BS; EltakoMessage;
                          EltakoDiscoveryRequest]%list ->
      guess_sensor_type_by_address parse msg = "???").
Proof.
  unfold guess_sensor_type_by_address, guess_1bs.
  destruct (msg_class msg) eqn:Hclass; cbn [msg_type_eqb andb];
    try (repeat split; intros H; try discriminate H; try reflexivity;
         simpl in H; intuition discriminate).
  - (* RPSMessage *)
    destruct (bytes_ltb [xfe; xdb; x00; x00]%list (address msg));
      repeat split; intros H; try discriminate H; try reflexivity;
      simpl in H; intuition discriminate.
  - (* Regular1BSMessage *)
    destruct (reinterpreted parse msg) as [_msg|];
      [destruct (bytes_leb min_address (address _msg)
                 && bytes_leb (address _msg) max_address)|];
      repeat split; intros H; try discriminate H; try reflexivity;
      simpl in H; intuition discriminate.
Qed.

Lemma guess_label_tells_class_witness :
  guess_sensor_type_by_address parse_1bs_frame
    {| msg_class := Regular4BSMessage; org := 7;
       address := [x00; x00; x00; x09]%list; body := []%list;
       has_outgoing := true |}
  = "Multi-Sensor ? ".
Proof.
  apply (proj1 (proj2 (proj2 (guess_label_tells_class parse_1bs_frame
           {| msg_class := Regular4BSMessage; org := 7;
              address := [x00; x00; x00; x09]%list; body := []%list;
              has_outgoing := true |})))).
  reflexivity.
Defined.

Lemma sum_bytes_app l1 l2 :
  sum_bytes (l1 ++ l2) = sum_bytes l1 + sum_bytes l2.
Proof.
  unfold sum_bytes. induction l1 as [|x l1 IH]; simpl; [reflexivity|].
  rewrite IH. ring.
Qed.

(** X4. The frame the classifier rebuilds always exists (the checksum fits its
    two bytes): it is the sentinel, the body without its last byte, a zero
    byte and a checksum byte, and that byte is the sum modulo 256 of all
    that lies between the sentinel and itself. For a body of eleven bytes
    the frame has the fourteen bytes of a bus frame. *)
Theorem reinterpret_frame (b : list byte) :
  exists ck,
    reinterpret b = Some ([xa5; x5a] ++ removelast b ++ [x00; ck])%list
    /\ byte_val ck = sum_bytes (removelast b ++ [x00]) mod 256
    /\ (List.length b = 11%nat ->
        List.length ([xa5; x5a] ++ removelast b ++ [x00; ck])%list = 14%nat).
Proof.
  unfold reinterpret, to_bytes_2_big.
  set (v := sum_bytes (removelast b) mod 256).
  assert (Hv : 0 <= v < 256) by (apply Z.mod_pos_bound; lia).
  replace ((0 <=? v) && (v <? 65536)) with true
    by (symmetry; apply andb_true_iff; split;
        [apply Z.leb_le | apply Z.ltb_lt]; lia).
  rewrite Z.div_small, Z.mod_small by lia.
  change (Byte.of_N (Z.to_N 0)) with (Some x00).
  destruct (Byte.of_N (Z.to_N v)) as [ck|] eqn:E.
  - exists ck. split; [reflexivity|].
    apply Byte.to_of_N in E.
    assert (Hck : byte_val ck = v) by (unfold byte_val; rewrite E; lia).
    split.
    + rewrite Hck. subst v. rewrite sum_bytes_app.
      change (sum_bytes [x00]%list) with 0. now rewrite Z.add_0_r.
    + intros Hlen. rewrite !length_app. simpl.
      rewrite removelast_firstn_len, length_firstn, Hlen. reflexivity.
  - apply Byte.of_N_None_iff in E. lia.
Qed.

Lemma reinterpret_frame_witness :
  exists ck,
    reinterpret (body (sample_1bs x05))
    = Some ([xa5; x5a] ++ removelast (body (sample_1bs x05)) ++ [x00; ck])%list
    /\ List.length
         ([xa5; x5a] ++ removelast (body (sample_1bs x05)) ++ [x00; ck])%list
       = 14%nat.
Proof.
  destruct (reinterpret_frame (body (sample_1bs x05))) as (ck & Hrun & _ & Hlen).
  exists ck. split; [exact Hrun | apply Hlen; reflexivity].
Defined.

(** ** The profile table and [add_device] *)

Lemma find_first_match {A} (p : A -> bool) (l : list A) :
  match find p l with
  | Some x =>
      exists before after,
        l = (before ++ x :: after)%list /\ p x = true
        /\ Forall (fun y => p y = false) before
  | None => Forall (fun y => p y = false) l
  end.
Proof.
  induction l as [|y l IH]; simpl; [constructor|].
  destruct (p y) eqn:E.
  - exists []%list, l. repeat split; [exact E | constructor].
  - destruct (find p l) as [x|].
    + destruct IH as (before & after & -> & Hx & Hb).
      exists (y :: before)%list, after.
      repeat split; [exact Hx | now constructor].
    + now constructor.
Qed.

(** X5. The lookup of a hardware name yields the first entry of the table, in
    table order, that carries the name, and nothing exactly when no entry
    carries it. *)
Theorem find_device_info_first_match (name : string) :
  match find_device_info name with
  | Some info =>
      exists before after,
        EEP_MAPPING = (before ++ info :: after)%list
        /\ hw_type info = name
        /\ Forall (fun i => hw_type i <> name) before
  | None => Forall (fun i => hw_type i <> name) EEP_MAPPING
  end.
Proof.
  unfold find_device_info.
  pose proof (find_first_match (fun i => String.eqb (hw_type i) name)
                EEP_MAPPING) as H.
  destruct (find (fun i => String.eqb (hw_type i) name) EEP_MAPPING)
    as [info|].
  - destruct H as (before & after & Heq & Hname & Hb).
    exists before, after. split; [exact Heq|].
    split; [now apply String.eqb_eq|].
    eapply Forall_impl; [|exact Hb].
    intros i Hi. now apply String.eqb_neq.
  - eapply Forall_impl; [|exact H].
    intros i Hi. now apply String.eqb_neq.
Qed.

(** The switch entries of the table are shadowed by the light entries of the
    same hardware names: the profile found for a unit is never one of the
    switch role. *)
Lemma find_device_info_role name info :
  find_device_info name = Some info ->
  In (type info) ["binary_sensor"; "sensor"; "light"; "cover"]%list.
Proof.
  unfold find_device_info, EEP_MAPPING. cbn [find hw_type sensor_entry
    actuator_entry].
  repeat match goal with
         | |- context [String.eqb ?a name] =>
             destruct (String.eqb a name)
         end;
    intros H; try discriminate H; injection H as <-; simpl; tauto.
Qed.

(** X6. [add_device] never touches the switch role, for any unit and any
    accumulator: no list is created for it and none is extended. *)
Theorem add_device_never_switch (device : BusObject) (self : HaConfig) :
  Dict.get "switch" (eltako (snd (add_device device self)))
  = Dict.get "switch" (eltako self).
Proof.
  destruct (find_device_info (device_name device)) as [info|] eqn:E.
  - destruct (add_device_known device info self E)
      as (self' & recs & -> & _ & _ & (Hother & _) & _).
    simpl. apply Hother. intros Heq.
    apply find_device_info_role in E. rewrite <- Heq in E.
    simpl in E. intuition discriminate.
  - now rewrite (add_device_unknown device self E).
Qed.

Lemma make_dev_obj_layout device info i self :
  has_sender_eep info = true ->
  make_dev_obj device info i self
  = (Returned (dev_obj_layout device info (sender_address self) i), self).
Proof.
  unfold has_sender_eep, make_dev_obj, dev_obj_layout, bind, read, ret,
    subscript.
  intros Hok.
  destruct (existsb (String.eqb (type info)) ["light"; "switch"; "cover"]%list);
    [destruct (sender_eep info) as [se|]; [|discriminate]|];
    destruct (String.eqb (type info) "cover"); reflexivity.
Qed.

Lemma add_device_loop_layout device info :
  has_sender_eep info = true ->
  forall offsets self,
  exists self',
    for_each offsets (add_device_at device info) self = (Returned tt, self')
    /\ records_of (type info) self'
       = (records_of (type info) self
          ++ map (dev_obj_layout device info (sender_address self)) offsets)%list
    /\ sender_address self' = sender_address self.
Proof.
  intros Hok offsets.
  induction offsets as [|i offsets IH]; intros self.
  - exists self. simpl. rewrite app_nil_r. auto.
  - destruct (append_record_run (type info)
                (dev_obj_layout device info (sender_address self) i) self)
      as (self1 & Happ & Hrecs1 & (_ & Hsend1 & _) & _).
    destruct (IH self1) as (self' & Hloop & Hrecs & Hsend).
    exists self'. split; [|split].
    + simpl. unfold bind at 1. unfold add_device_at, bind at 1.
      rewrite (make_dev_obj_layout device info i self Hok), Happ.
      exact Hloop.
    + rewrite Hrecs, Hrecs1, Hsend1, <- app_assoc. reflexivity.
    + congruence.
Qed.

Lemma add_device_layout_run device info self :
  find_device_info (device_name device) = Some info ->
  exists self',
    add_device device self = (Returned tt, self')
    /\ records_of (type info) self'
       = (records_of (type info) self
          ++ map (dev_obj_layout device info (sender_address self))
               (range (address_count info)))%list
    /\ (existsb (String.eqb (type info)) ["light"; "switch"; "cover"]%list
        = true -> exists se, sender_eep info = Some se).
Proof.
  intros Hfind.
  assert (Hok : has_sender_eep info = true)
    by (apply EEP_MAPPING_has_sender_eep;
        now apply find_device_info_in in Hfind).
  destruct (add_device_loop_layout device info Hok
              (range (address_count info)) self) as (self' & Hrun & Hrecs & _).
  exists self'. unfold add_device. rewrite Hfind.
  split; [exact Hrun|]. split; [exact Hrecs|].
  intros Hact. unfold has_sender_eep in Hok. rewrite Hact in Hok.
  destruct (sender_eep info) as [se|]; [eauto | discriminate].
Qed.

(** X7. The records of a unit, field by field: [add_device] appends, for each
    offset in turn, the record with the id, the profile and the name of the
    offset address, then for the actuator roles the sender block whose id is
    formatted from the default sender address plus the offset address, then
    for the cover role its three fields. *)
Theorem add_device_record_layout device info self :
  find_device_info (device_name device) = Some info ->
  exists self',
    add_device device self = (Returned tt, self')
    /\ records_of (type info) self'
       = (records_of (type info) self
          ++ map (dev_obj_layout device info (sender_address self))
               (range (address_count info)))%list
    /\ (existsb (String.eqb (type info)) ["light"; "switch"; "cover"]%list
        = true -> exists se, sender_eep info = Some se).
Proof. exact (add_device_layout_run device info self). Qed.

Lemma add_device_record_layout_witness :
  exists self',
    add_device {| device_name := "FWG14"; device_address := 9 |}
      (init 0xB000 false) = (Returned tt, self')
    /\ records_of "sensor" self'
       = [[("id", VStr "00-00-00-09"); ("eep", VStr "A5-13-01");
           ("name", VStr "FWG14 - 9")]]%list.
Proof.
  destruct (add_device_record_layout
              {| device_name := "FWG14"; device_address := 9 |}
              (sensor_entry "FWG14" "A5-13-01" "sensor" "Weather station")
              (init 0xB000 false) eq_refl) as (self' & Hrun & Hrecs & _).
  exists self'. split; [exact Hrun | exact Hrecs].
Defined.

Lemma add_device_keeps_sender_address device self :
  sender_address (snd (add_device device self)) = sender_address self.
Proof.
  destruct (find_device_info (device_name device)) as [info|] eqn:E.
  - destruct (add_device_known device info self E)
      as (self' & recs & -> & _ & _ & (_ & Hsend & _) & _).
    exact Hsend.
  - now rewrite (add_device_unknown device self E).
Qed.

(** X8. [add_device] does not deduplicate: announcing the same unit twice stores
    its records twice, one run after the other. *)
Theorem add_device_twice device info self :
  find_device_info (device_name device) = Some info ->
  let recs := map (dev_obj_layout device info (sender_address self))
                (range (address_count info)) in
  records_of (type info) (snd (add_device device (snd (add_device device self))))
  = (records_of (type info) self ++ recs ++ recs)%list.
Proof.
  intros Hfind recs.
  destruct (add_device_layout_run device info self Hfind)
    as (self1 & Hrun1 & Hrecs1 & _).
  rewrite Hrun1. simpl.
  destruct (add_device_layout_run device info self1 Hfind)
    as (self2 & Hrun2 & Hrecs2 & _).
  rewrite Hrun2. simpl. rewrite Hrecs2, Hrecs1, <- app_assoc.
  pose proof (add_device_keeps_sender_address device self) as Hs.
  rewrite Hrun1 in Hs. simpl in Hs. rewrite Hs. reflexivity.
Qed.

Lemma add_device_twice_witness :
  records_of "cover"
    (snd (add_device {| device_name := "FSB14"; device_address := 7 |}
            (snd (add_device {| device_name := "FSB14"; device_address := 7 |}
                    (init 0xB000 false)))))
  = (let r := dev_obj_layout {| device_name := "FSB14"; device_address := 7 |}
                (actuator_entry "FSB14" "G5-3F-7F" "H5-3F-7F" "cover"
                   "Eltako cover" 1) 0xB000 0 in
     [r; r])%list.
Proof.
  apply (add_device_twice {| device_name := "FSB14"; device_address := 7 |}
           (actuator_entry "FSB14" "G5-3F-7F" "H5-3F-7F" "cover"
              "Eltako cover" 1) (init 0xB000 false) eq_refl).
Defined.

(** ** [add_sensor] *)

Section SensorFacts.

Variable parse : list byte -> option ESP2Message.

Lemma add_sensor_layout_run msg self info :
  reaches_org_lookup msg self = true ->
  org_mapping_get (org msg) = Some info ->
  exists self',
    add_sensor parse msg self = (Returned tt, self')
    /\ records_of (org_type info) self'
       = (records_of (org_type info) self ++ [sensor_layout parse msg info])%list
    /\ sener_id_list self' = (sener_id_list self ++ [address msg])%list
    /\ (org_type info = "binary_sensor" <-> org msg = 5)
    /\ (org_type info = "sensor" <-> org msg = 6 \/ org msg = 7).
Proof.
  unfold reaches_org_lookup, add_sensor.
  intros Hr Hinfo.
  apply andb_true_iff in Hr. destruct Hr as [Hr Hnew].
  apply andb_true_iff in Hr. destruct Hr as [-> ->].
  unfold bind at 1. unfold read at 1. cbv beta iota. rewrite Hnew.
  unfold bind at 1. rewrite Hinfo. unfold subscript, ret. cbv beta iota.
  assert (Hlayout :
    (if String.eqb (org_type info) "binary_sensor"
     then Dict.set "device_class" (VStr "window / door / smoke / motion / ?")
            [("id", VStr (sensor_address_string (address msg)));
             ("eep", VStr (org_eep info));
             ("name", VStr (org_name info ++ " "
                            ++ sensor_address_string (address msg)));
             ("comment",
              VStr ("Sensor Type: " ++ guess_sensor_type_by_address parse msg
                    ++ ", Derived from Msg Type: "
                    ++ msg_type_name (msg_class msg)))]%list
     else [("id", VStr (sensor_address_string (address msg)));
           ("eep", VStr (org_eep info));
           ("name", VStr (org_name info ++ " "
                          ++ sensor_address_string (address msg)));
           ("comment",
            VStr ("Sensor Type: " ++ guess_sensor_type_by_address parse msg
                  ++ ", Derived from Msg Type: "
                  ++ msg_type_name (msg_class msg)))]%list)
    = sensor_layout parse msg info).
  { unfold sensor_layout.
    destruct (String.eqb (org_type info) "binary_sensor"); reflexivity. }
  rewrite Hlayout.
  destruct (append_record_run (org_type info) (sensor_layout parse msg info)
              self)
    as (self1 & Happ & Hrecs & _ & Hids & _).
  unfold bind at 1. rewrite Happ. unfold bind, read, write.
  eexists. split; [reflexivity|].
  unfold records_of in *. simpl. split; [exact Hrecs|].
  split; [now rewrite Hids|].
  unfold org_mapping_get, ORG_MAPPING in Hinfo. cbn [find fst snd] in Hinfo.
  destruct (5 =? org msg) eqn:E5;
    [|destruct (6 =? org msg) eqn:E6; [|destruct (7 =? org msg) eqn:E7]];
    try discriminate Hinfo; injection Hinfo as <-; simpl;
    rewrite ?Z.eqb_eq, ?Z.eqb_neq in *;
    (split; split; intros H; try discriminate H; try reflexivity; try lia).
Qed.

(** X9. The record of a telegram, field by field: a telegram that reaches the
    organization table with a mapped code has its record appended under the
    role of the code, with the hyphenated upper-case address as id, the
    profile template and the name of the code, the comment made of the
    classifier's label and the class name, and the device-class placeholder
    when the role is the binary sensor's, which is the case exactly for the
    rocker code 5. Its address goes to the end of the dedup list. *)
Theorem add_sensor_record_layout msg self info :
  reaches_org_lookup msg self = true ->
  org_mapping_get (org msg) = Some info ->
  exists self',
    add_sensor parse msg self = (Returned tt, self')
    /\ records_of (org_type info) self'
       = (records_of (org_type info) self ++ [sensor_layout parse msg info])%list
    /\ sener_id_list self' = (sener_id_list self ++ [address msg])%list
    /\ (org_type info = "binary_sensor" <-> org msg = 5)
    /\ (org_type info = "sensor" <-> org msg = 6 \/ org msg = 7).
Proof. exact (add_sensor_layout_run msg self info). Qed.

(** X10. Feeding a telegram a second time never changes the accumulator any
    further, whatever the telegram is. *)
Theorem add_sensor_idempotent msg self :
  snd (add_sensor parse msg (snd (add_sensor parse msg self)))
  = snd (add_sensor parse msg self).
Proof.
  destruct (add_sensor_cases parse msg self)
    as [H | [[key H] | (info & self' & r & _ & _ & H & _ & _ & _ & Hids & _)]];
    rewrite H; simpl.
  - now rewrite H.
  - now rewrite H.
  - rewrite add_sensor_seen; [reflexivity|].
    rewrite Hids. apply in_or_app. right. now left.
Qed.

Lemma first_seen_in addrs : forall seen a,
  In a (first_seen seen addrs) <-> In a seen \/ In a addrs.
Proof.
  induction addrs as [|x addrs IH]; intros seen a; simpl.
  - tauto.
  - destruct (existsb (bytes_eqb x) seen) eqn:E; rewrite IH.
    + apply existsb_bytes_eqb in E. split; [tauto|].
      intros [H | [<- | H]]; auto.
    + rewrite in_app_iff. simpl. tauto.
Qed.

Lemma feed_sensors_first_seen msgs : forall self,
  Forall (fun m => is_sensor_telegram m = true) msgs ->
  sener_id_list (feed_sensors parse msgs self)
  = first_seen (sener_id_list self) (map address msgs)
  /\ (List.length (all_records (feed_sensors parse msgs self))
      + List.length (sener_id_list self)
      = List.length (all_records self)
        + List.length (sener_id_list (feed_sensors parse msgs self)))%nat.
Proof.
  induction msgs as [|m msgs IH]; intros self Hall.
  - simpl. split; [reflexivity | lia].
  - inversion_clear Hall as [|? ? Hm Hrest].
    change (feed_sensors parse (m :: msgs) self)
      with (feed_sensors parse msgs (snd (add_sensor parse m self))).
    cbn [map first_seen].
    destruct (existsb (bytes_eqb (address m)) (sener_id_list self)) eqn:E.
    + apply existsb_bytes_eqb in E.
      rewrite (add_sensor_seen parse m self E). simpl.
      now apply IH.
    + assert (Hnew : ~ In (address m) (sener_id_list self)).
      { intros Hin. apply existsb_bytes_eqb in Hin. congruence. }
      destruct (add_sensor_new parse m self Hm Hnew)
        as (self1 & Hrun & Hlen & Hids).
      rewrite Hrun. simpl.
      destruct (IH self1 Hrest) as [IH1 IH2].
      pose proof (f_equal (@List.length _) Hids) as Hl.
      rewrite length_app in Hl. simpl in Hl.
      split; [now rewrite IH1, Hids | lia].
Qed.

(** X11. A stream of sensor telegrams fed to a fresh accumulator records the
    addresses in the order of their first occurrence, each once: the dedup
    list holds exactly the addresses of the stream, and there are as many
    records as distinct addresses. *)
Theorem feed_sensors_records_first_occurrences sender log msgs :
  Forall (fun m => is_sensor_telegram m = true) msgs ->
  let self := feed_sensors parse msgs (init sender log) in
  sener_id_list self = first_seen [] (map address msgs)
  /\ (forall a, In a (sener_id_list self) <-> In a (map address msgs))
  /\ NoDup (sener_id_list self)
  /\ List.length (all_records self) = List.length (sener_id_list self).
Proof.
  intros Hall self.
  destruct (feed_sensors_first_seen msgs (init sender log) Hall) as [Hids Hlen].
  fold self in Hids, Hlen. simpl in Hids, Hlen.
  split; [exact Hids|]. split; [|split].
  - intros a. rewrite Hids, first_seen_in. simpl. tauto.
  - apply (feed_sensors_invariant parse msgs (init sender log)
             (dedup_invariant_init sender log)).
  - change (all_records (init sender log)) with (@nil record) in Hlen.
    simpl in Hlen. lia.
Qed.

End SensorFacts.

Lemma add_sensor_record_layout_witness :
  exists self',
    add_sensor parse_1bs_frame (sample_1bs x05) (init 0xB000 false)
    = (Returned tt, self')
    /\ records_of "sensor" self'
       = [[("id", VStr "00-00-10-05"); ("eep", VStr "D5-??-??");
           ("name", VStr "1 Byte Communication 00-00-10-05");
           ("comment",
            VStr "Sensor Type: FTS14EM switch, Derived from Msg Type: Regular1BSMessage")]]%list.
Proof.
  destruct (add_sensor_record_layout parse_1bs_frame (sample_1bs x05)
              (init 0xB000 false)
              {| org_Telegram := "1BS"; org_RORG := "D5";
                 org_name := "1 Byte Communication";
                 org_type := "sensor"; org_eep := "D5-??-??" |}
              eq_refl eq_refl) as (self' & Hrun & Hrecs & _).
  exists self'. split; [exact Hrun | exact Hrecs].
Defined.

Lemma feed_sensors_records_first_occurrences_witness :
  sener_id_list
    (feed_sensors parse_1bs_frame
       [sample_1bs x06; sample_1bs x05; sample_1bs x06]
       (init 0xB000 false))
  = [[x00; x00; x10; x06]; [x00; x00; x10; x05]]%list.
Proof.
  apply (proj1 (feed_sensors_records_first_occurrences parse_1bs_frame
                  0xB000 false
                  [sample_1bs x06; sample_1bs x05; sample_1bs x06]%list
                  ltac:(repeat constructor))).
Defined.

(** ** The renderer *)

Lemma and_then_returns w1 w2 :
  snd w1 = None -> snd w2 = None ->
  and_then w1 w2 = ((fst w1 ++ fst w2)%list, None).
Proof.
  destruct w1 as [l1 [e|]], w2 as [l2 e2]; simpl; intros H1 H2;
    try discriminate. now subst.
Qed.

Lemma and_then_returned w1 w2 :
  snd (and_then w1 w2) = None ->
  snd w1 = None /\ snd w2 = None
  /\ fst (and_then w1 w2) = (fst w1 ++ fst w2)%list.
Proof.
  destruct w1 as [l1 [e|]], w2 as [l2 e2]; simpl; intros H;
    try discriminate. auto.
Qed.

Lemma for_lines_returns {A} (body : A -> written) (xs : list A) :
  (forall x, In x xs -> snd (body x) = None) ->
  for_lines xs body
  = (List.concat (map (fun x => fst (body x)) xs), None).
Proof.
  induction xs as [|x xs IH]; intros H; simpl; [reflexivity|].
  rewrite (and_then_returns (body x) (for_lines xs body)).
  - rewrite IH by (intros y Hy; apply H; now right). reflexivity.
  - apply H. now left.
  - rewrite IH by (intros y Hy; apply H; now right). reflexivity.
Qed.

Lemma for_lines_returned {A} (body : A -> written) (xs : list A) :
  snd (for_lines xs body) = None ->
  (forall x, In x xs -> snd (body x) = None)
  /\ fst (for_lines xs body) = List.concat (map (fun x => fst (body x)) xs).
Proof.
  induction xs as [|x xs IH]; simpl; intros H.
  - split; [intros x [] | reflexivity].
  - apply and_then_returned in H. destruct H as (Hx & Hxs & Hfst).
    destruct (IH Hxs) as [Hall Hlines]. split.
    + intros y [<- | Hy]; auto.
    + now rewrite Hfst, Hlines.
Qed.

Lemma dict_key_has_value {V} (d : Dict.t V) k :
  In k (map fst d) -> exists v, Dict.get k d = Some v.
Proof.
  induction d as [|[k' v'] d IH]; simpl; [intros []|].
  intros [-> | Hin].
  - rewrite String.eqb_refl. eauto.
  - destruct (String.eqb k' k); eauto.
Qed.

Section RendererFacts.

Variable repr_dict : Dict.t string -> string.

Lemma render_entry_renderable item k :
  renderable item -> In k (map fst item) ->
  snd (render_entry repr_dict item k) = None.
Proof.
  intros (_ & Hkeys & Hsender) Hin.
  destruct (Hkeys k Hin) as [v Hv].
  unfold render_entry. rewrite Hv.
  destruct (String.eqb k "sender") eqn:Es.
  - apply String.eqb_eq in Es. subst k. simpl.
    destruct (Hsender v Hv) as (d & i & e & -> & Hi & He).
    unfold render_sender. rewrite Hi, He. reflexivity.
  - destruct (negb (existsb (String.eqb k) ["id"; "sender"; "comment"]%list));
      reflexivity.
Qed.

Lemma render_item_renderable item :
  renderable item -> snd (render_item repr_dict item) = None.
Proof.
  intros Hr. pose proof Hr as ([v Hid] & Hkeys & _).
  unfold render_item. rewrite Hid.
  rewrite (for_lines_returns (render_entry repr_dict item) (map fst item))
    by (intros k Hk; now apply render_entry_renderable).
  unfold Dict.mem.
  destruct (Dict.get "comment" item); reflexivity.
Qed.

Lemma save_as_yaml_to_flie_renderable self :
  all_renderable self ->
  exists body,
    save_as_yaml_to_flie repr_dict self
    = (("eltako:" :: body ++ logger_block)%list, None).
Proof.
  intros Hall. unfold save_as_yaml_to_flie.
  assert (Hroles : forall ty, In ty (map fst (eltako self)) ->
                   snd (render_role repr_dict (eltako self) ty) = None).
  { intros ty Hin. destruct (dict_key_has_value _ _ Hin) as [items Hitems].
    unfold render_role. rewrite Hitems.
    rewrite (for_lines_returns (render_item repr_dict) items); [reflexivity|].
    intros item Hitem. apply render_item_renderable.
    specialize (Hall ty items Hitems). rewrite Forall_forall in Hall. auto. }
  rewrite (for_lines_returns _ _ Hroles).
  eexists. reflexivity.
Qed.

End RendererFacts.

Lemma renderable_dev_obj_layout device info sender i :
  has_sender_eep info = true ->
  renderable (dev_obj_layout device info sender i).
Proof.
  unfold has_sender_eep, dev_obj_layout. intros Hok.
  split; [eexists; reflexivity|].
  split; [apply dict_key_has_value|].
  destruct (existsb (String.eqb (type info)) ["light"; "switch"; "cover"]%list);
    [destruct (sender_eep info) as [se|]; [|discriminate]|];
    destruct (String.eqb (type info) "cover"); simpl;
    intros v Hv; try discriminate Hv;
    injection Hv as <-; do 3 eexists; repeat split; reflexivity.
Qed.

Lemma renderable_sensor_layout parse msg info :
  renderable (sensor_layout parse msg info).
Proof.
  unfold sensor_layout.
  split; [eexists; reflexivity|].
  split; [apply dict_key_has_value|].
  destruct (String.eqb (org_type info) "binary_sensor"); simpl;
    intros v Hv; discriminate Hv.
Qed.

Lemma all_renderable_append ty self self' recs :
  all_renderable self ->
  records_of ty self' = (records_of ty self ++ recs)%list ->
  (forall ty', ty' <> ty ->
     Dict.get ty' (eltako self') = Dict.get ty' (eltako self)) ->
  Forall renderable recs ->
  all_renderable self'.
Proof.
  intros Hall Hrecs Hother Hnew ty' items Hitems.
  destruct (string_dec ty' ty) as [-> | Hne].
  - unfold records_of in Hrecs. rewrite Hitems in Hrecs. subst items.
    apply Forall_app. split; [|exact Hnew].
    destruct (Dict.get ty (eltako self)) as [l|] eqn:E; [|constructor].
    exact (Hall ty l E).
  - rewrite (Hother ty' Hne) in Hitems. exact (Hall ty' items Hitems).
Qed.

Lemma add_device_renderable device self :
  all_renderable self -> all_renderable (snd (add_device device self)).
Proof.
  intros Hall.
  destruct (find_device_info (device_name device)) as [info|] eqn:E.
  - destruct (add_device_known device info self E)
      as (self' & recs & Hrun & _ & _ & (Hother & _) & _).
    destruct (add_device_layout_run device info self E)
      as (self'' & Hrun' & Hrecs & _).
    rewrite Hrun in Hrun'. injection Hrun' as <-. rewrite Hrun. simpl.
    apply (all_renderable_append (type info) self self' _ Hall Hrecs Hother).
    apply Forall_forall. intros r Hr. apply in_map_iff in Hr.
    destruct Hr as (i & <- & _). apply renderable_dev_obj_layout.
    apply EEP_MAPPING_has_sender_eep. now apply find_device_info_in in E.
  - now rewrite (add_device_unknown device self E).
Qed.

Lemma add_sensor_renderable parse msg self :
  all_renderable self -> all_renderable (snd (add_sensor parse msg self)).
Proof.
  intros Hall.
  destruct (add_sensor_cases parse msg self)
    as [-> | [[key ->] | (info & self' & r & Hr & Hinfo & Hrun & _ & _
                          & (Hother & _) & _)]];
    [exact Hall .. |].
  destruct (add_sensor_layout_run parse msg self info Hr Hinfo)
    as (self'' & Hrun' & Hrecs & _).
  rewrite Hrun in Hrun'. injection Hrun' as <-. rewrite Hrun. simpl.
  apply (all_renderable_append (org_type info) self self' _ Hall Hrecs Hother).
  constructor; [apply renderable_sensor_layout | constructor].
Qed.

Lemma feed_renderable parse events : forall self,
  all_renderable self -> all_renderable (feed parse events self).
Proof.
  induction events as [|ev events IH]; intros self Hall; [exact Hall|].
  simpl. apply IH. destruct ev as [d | m].
  - now apply add_device_renderable.
  - now apply add_sensor_renderable.
Qed.

(** X12. Whatever hardware units and telegrams were fed to a fresh accumulator,
    in whatever order, printing the document runs to its end without an
    exception; the document starts with the line ["eltako:"] and ends with
    the four lines of the logger block (also when nothing was discovered,
    and whatever the flag given at construction). *)
Theorem save_as_yaml_to_flie_after_feed
  (repr_dict : Dict.t string -> string)
  (parse : list byte -> option ESP2Message)
  (events : list event) (sender : Z) (log : bool) :
  exists body,
    save_as_yaml_to_flie repr_dict (feed parse events (init sender log))
    = (("eltako:" :: body ++ logger_block)%list, None).
Proof.
  apply save_as_yaml_to_flie_renderable, feed_renderable.
  intros ty items H. discriminate H.
Qed.

(** X14. A string field with a question mark is printed with the marker that it
    needs to be completed, and any other string field as it is: whenever a
    record is printed without an exception, each of its string fields other
    than the id, the sender and the comment has its line in the output. *)
Theorem render_item_marks_wildcards
  (repr_dict : Dict.t string -> string) (item : record) (k s : string) :
  snd (render_item repr_dict item) = None ->
  In k (map fst item) ->
  ~ In k ["id"; "sender"; "comment"]%list ->
  Dict.get k item = Some (VStr s) ->
  In ("    " ++ k ++ ": "
      ++ (if contains_char "?" s then s ++ NEED_TO_BE_COMPLETED else s))
     (fst (render_item repr_dict item)).
Proof.
  intros Hret Hin Hk Hget. unfold render_item in *.
  apply and_then_returned in Hret. destruct Hret as (_ & Hrest & ->).
  apply and_then_returned in Hrest. destruct Hrest as (Hloop & _ & ->).
  apply for_lines_returned in Hloop. destruct Hloop as [_ ->].
  apply in_or_app. right. apply in_or_app. left.
  apply in_concat. exists (fst (render_entry repr_dict item k)).
  split; [apply in_map_iff; exists k; auto|].
  unfold render_entry. rewrite Hget.
  assert (Hs : String.eqb k "sender" = false).
  { apply String.eqb_neq. intros ->. apply Hk. simpl. tauto. }
  assert (Hn : existsb (String.eqb k) ["id"; "sender"; "comment"]%list = false).
  { destruct (existsb (String.eqb k) ["id"; "sender"; "comment"]%list) eqn:E;
      [|reflexivity].
    apply existsb_exists in E. destruct E as (x & Hx & Heq).
    apply String.eqb_eq in Heq. subst x. contradiction. }
  rewrite Hs, Hn. simpl. left. reflexivity.
Qed.

Lemma render_item_marks_wildcards_witness :
  In "    eep: D5-??-?? # <= NEED TO BE COMPLETED!!!"
     (fst (render_item (fun _ => "")
             (sensor_layout parse_1bs_frame (sample_1bs x05)
                {| org_Telegram := "1BS"; org_RORG := "D5";
                   org_name := "1 Byte Communication";
                   org_type := "sensor"; org_eep := "D5-??-??" |}))).
Proof.
  apply (render_item_marks_wildcards (fun _ => "")
           (sensor_layout parse_1bs_frame (sample_1bs x05)
              {| org_Telegram := "1BS"; org_RORG := "D5";
                 org_name := "1 Byte Communication";
                 org_type := "sensor"; org_eep := "D5-??-??" |})
           "eep" "D5-??-??").
  - reflexivity.
  - simpl. tauto.
  - simpl. intros [H | [H | [H | []]]]; discriminate H.
  - reflexivity.
Defined.

(** X15. The comment of a record is never printed as a field of its own: the
    loop over the keys prints nothing for it, and when the record is printed
    without an exception its last line is the comment behind a hash sign. *)
Theorem render_item_comment_last
  (repr_dict : Dict.t string -> string) (item : record) (c : string) :
  snd (render_item repr_dict item) = None ->
  Dict.get "comment" item = Some (VStr c) ->
  render_entry repr_dict item "comment" = nothing
  /\ exists before,
       fst (render_item repr_dict item)
       = (before ++ [("    #" ++ c)%string])%list.
Proof.
  intros Hret Hget. split; [reflexivity|].
  unfold render_item in *.
  apply and_then_returned in Hret. destruct Hret as (_ & Hrest & ->).
  apply and_then_returned in Hrest. destruct Hrest as (_ & _ & ->).
  unfold Dict.mem. rewrite Hget. simpl.
  eexists. rewrite app_assoc. reflexivity.
Qed.

Lemma render_item_comment_last_witness :
  exists before,
    fst (render_item (fun _ => "")
           (sensor_layout parse_1bs_frame (sample_1bs x05)
              {| org_Telegram := "1BS"; org_RORG := "D5";
                 org_name := "1 Byte Communication";
                 org_type := "sensor"; org_eep := "D5-??-??" |}))
    = (before
       ++ ["    #Sensor Type: FTS14EM switch, Derived from Msg Type: Regular1BSMessage"])%list.
Proof.
  apply (proj2 (render_item_comment_last (fun _ => "")
           (sensor_layout parse_1bs_frame (sample_1bs x05)
              {| org_Telegram := "1BS"; org_RORG := "D5";
                 org_name := "1 Byte Communication";
                 org_type := "sensor"; org_eep := "D5-??-??" |})
           "Sensor Type: FTS14EM switch, Derived from Msg Type: Regular1BSMessage"
           eq_refl eq_refl)).
Defined.

Lemma dict_get_key {V} (d : Dict.t V) k v :
  Dict.get k d = Some v -> In k (map fst d).
Proof.
  induction d as [|[k' v'] d IH]; simpl; [discriminate|].
  destruct (String.eqb k' k) eqn:E.
  - apply String.eqb_eq in E. auto.
  - auto.
Qed.

(** X13. Nothing that was discovered is left out of the document: after any
    stream of events on a fresh accumulator, every record kept under any
    role has its ["  - id: ..."] line in what is printed. *)
Theorem save_as_yaml_to_flie_prints_every_record
  (repr_dict : Dict.t string -> string)
  (parse : list byte -> option ESP2Message)
  (events : list event) (sender : Z) (log : bool)
  (ty : string) (r : record) :
  let self := feed parse events (init sender log) in
  In r (records_of ty self) ->
  exists v,
    Dict.get "id" r = Some v
    /\ In ("  - id: " ++ format_value repr_dict v)
          (fst (save_as_yaml_to_flie repr_dict self)).
Proof.
  intros self Hin.
  assert (Hall : all_renderable self).
  { apply feed_renderable. intros ty' items H. discriminate H. }
  unfold records_of in Hin.
  destruct (Dict.get ty (eltako self)) as [items|] eqn:Hitems; [|destruct Hin].
  pose proof (Hall ty items Hitems) as Hitems_ok.
  rewrite Forall_forall in Hitems_ok.
  destruct (Hitems_ok r Hin) as ([v Hid] & _).
  exists v. split; [exact Hid|].
  destruct (save_as_yaml_to_flie_renderable repr_dict self Hall)
    as [body Hbody].
  assert (Hret : snd (save_as_yaml_to_flie repr_dict self) = None)
    by now rewrite Hbody.
  clear Hbody. unfold save_as_yaml_to_flie in *.
  apply and_then_returned in Hret. destruct Hret as (_ & Hrest & ->).
  apply and_then_returned in Hrest. destruct Hrest as (Hroles & _ & ->).
  apply for_lines_returned in Hroles. destruct Hroles as [Hrole ->].
  apply in_or_app. right. apply in_or_app. left.
  apply in_concat. exists (fst (render_role repr_dict (eltako self) ty)).
  assert (Hkey : In ty (map fst (eltako self)))
    by (eapply dict_get_key; exact Hitems).
  split; [apply in_map_iff; exists ty; auto|].
  specialize (Hrole ty Hkey). unfold render_role in *. rewrite Hitems in *.
  apply and_then_returned in Hrole. destruct Hrole as (_ & Hloop & ->).
  apply for_lines_returned in Hloop. destruct Hloop as [Hitem ->].
  apply in_or_app. right.
  apply in_concat. exists (fst (render_item repr_dict r)).
  split; [apply in_map_iff; exists r; auto|].
  specialize (Hitem r Hin). unfold render_item in *. rewrite Hid in *.
  apply and_then_returned in Hitem. destruct Hitem as (_ & _ & ->).
  simpl. left. reflexivity.
Qed.

Lemma save_as_yaml_to_flie_prints_every_record_witness :
  In "  - id: 00-00-10-05"
     (fst (save_as_yaml_to_flie (fun _ => "")
             (feed parse_1bs_frame [Telegram (sample_1bs x05)]
                (init 0xB000 false)))).
Proof.
  destruct (save_as_yaml_to_flie_prints_every_record (fun _ => "")
              parse_1bs_frame [Telegram (sample_1bs x05)]%list 0xB000 false
              "sensor"
              (sensor_layout parse_1bs_frame (sample_1bs x05)
                 {| org_Telegram := "1BS"; org_RORG := "D5";
                    org_name := "1 Byte Communication";
                    org_type := "sensor"; org_eep := "D5-??-??" |})
              ltac:(left; reflexivity)) as (v & Hv & Hin).
  injection Hv as <-. exact Hin.
Defined.

(** * The light entities *)

Module LightFacts.

Import Light.

Section Setup.

Variable A : Type.
Variable parse_address : string -> option A.
Variable plain_address_hex : A -> string.
Variable DOMAIN : string.

(** X16. For a configuration with one of the two supported profiles and an id
    that parses, [setup_platform] adds one dimmable light for ["A5-38-08"]
    and nothing at all for ["M5-38-08"]: it never adds a switchable light. *)
Theorem setup_platform_supported_profiles (cfg : config) (id : A) :
  In (CONF_EEP cfg) CONF_EEP_SUPPORTED ->
  parse_address (CONF_ID cfg) = Some id ->
  (CONF_EEP cfg = "A5-38-08" ->
   setup_platform parse_address plain_address_hex DOMAIN cfg
   = Returned [new_dimmable plain_address_hex DOMAIN id (CONF_NAME cfg)
                 "A5-38-08" (CONF_SENDER_ID cfg)]%list)
  /\ (CONF_EEP cfg = "M5-38-08" ->
      setup_platform parse_address plain_address_hex DOMAIN cfg
      = Returned []%list)
  /\ (forall es e,
        setup_platform parse_address plain_address_hex DOMAIN cfg
        = Returned es ->
        In e es -> class e = EltakoDimmableLight).
Proof.
  intros Hsup Hid. unfold setup_platform. rewrite Hid.
  simpl in Hsup. destruct Hsup as [<- | [<- | []]]; simpl.
  - split; [reflexivity|]. split; [discriminate|].
    intros es e H. injection H as <-. intros [<- | []]. reflexivity.
  - split; [discriminate|]. split; [reflexivity|].
    intros es e H. injection H as <-. intros [].
Qed.

(** X17. A switchable light that [setup_platform] creates is deaf: it is created
    only for the profile ["AM-38-08"], and [value_changed] of its class only
    listens under the profile ["M5-38-08"], so no message ever changes it
    or schedules an update. *)
Theorem switchable_from_setup_ignores_messages
  (cfg : config) (es : list (entity A)) (e : entity A) (msg : message) :
  setup_platform parse_address plain_address_hex DOMAIN cfg = Returned es ->
  In e es ->
  class e = EltakoSwitchableLight ->
  dev_eep e = "AM-38-08" /\ value_changed msg e = Returned e.
Proof.
  unfold setup_platform.
  destruct (parse_address (CONF_ID cfg)) as [id|]; [|discriminate].
  destruct (existsb (String.eqb (CONF_EEP cfg)) ["A5-38-08"]%list) eqn:E1.
  - intros H. injection H as <-. intros [<- | []]. discriminate.
  - destruct (existsb (String.eqb (CONF_EEP cfg)) ["AM-38-08"]%list) eqn:E2.
    + intros H. injection H as <-. intros [<- | []] _.
      simpl in E2. rewrite orb_false_r in E2. apply String.eqb_eq in E2.
      unfold value_changed, value_changed_switchable. simpl.
      rewrite E2. split; reflexivity.
    + intros H. injection H as <-. intros [].
Qed.

End Setup.

Section Methods.

Context {A : Type}.

(** X18. A rocker message for a switchable light under the profile ["M5-38-08"]:
    the data byte [0x70] switches it on, [0x50] off, any other byte leaves
    it as it is, and in all three cases an update is scheduled; a message
    of another organization than 5 is ignored without an update, and one
    without data raises [IndexError]. *)
Theorem value_changed_switchable_cases (msg : message) (e : entity A) :
  dev_eep e = "M5-38-08" ->
  (org msg <> 0x05 -> value_changed_switchable msg e = Returned e)
  /\ (org msg = 0x05 -> data msg = []%list ->
      value_changed_switchable msg e = Raised IndexError)
  /\ (forall d0 rest,
        org msg = 0x05 -> data msg = (d0 :: rest)%list ->
        exists e',
          value_changed_switchable msg e = Returned e'
          /\ scheduled_updates e' = S (scheduled_updates e)
          /\ brightness e' = brightness e /\ sent e' = sent e
          /\ (d0 = x70 -> on_state e' = true)
          /\ (d0 = x50 -> on_state e' = false)
          /\ (d0 <> x70 -> d0 <> x50 -> on_state e' = on_state e)).
Proof.
  intros Heep. unfold value_changed_switchable, data_at. rewrite Heep.
  simpl. split; [|split].
  - intros Horg. apply Z.eqb_neq in Horg. now rewrite Horg.
  - intros -> ->. reflexivity.
  - intros d0 rest -> ->. simpl. eexists. split; [reflexivity|]. simpl.
    repeat split.
    + intros ->. reflexivity.
    + intros ->. reflexivity.
    + intros H70 H50.
      destruct (byte_val d0 =? 112) eqn:E1.
      { apply Z.eqb_eq in E1. destruct H70. now apply byte_val_inj. }
      destruct (byte_val d0 =? 80) eqn:E2.
      { apply Z.eqb_eq in E2. destruct H50. now apply byte_val_inj. }
      reflexivity.
Qed.

(** X19. A 4-byte message for a dimmable light under the profile ["A5-38-08"]
    is taken exactly when its organization is 7, its first data byte is 2
    and its last data byte is 9 for a dim value other than zero and 8 for
    the dim value zero. The light is then on exactly when the dim value is
    not zero, which is exactly when the new brightness is positive; the
    brightness is the dim value scaled by 256/100 and rounded down, so it
    exceeds 255 from the dim value 100 on. Any other message leaves the
    entity as it is. *)
Theorem value_changed_dimmable_cases
  (o : Z) (d0 d1 d2 d3 : byte) (e : entity A) :
  dev_eep e = "A5-38-08" ->
  let msg := {| org := o; data := [d0; d1; d2; d3]%list |} in
  let taken := o = 0x07 /\ d0 = x02
               /\ byte_val d3 = (if byte_val d1 =? 0 then 0x08 else 0x09) in
  (taken ->
   exists e' b,
     value_changed_dimmable msg e = Returned e'
     /\ brightness e' = Some b
     /\ b = byte_val d1 * 256 / 100
     /\ (on_state e' = true <-> d1 <> x00)
     /\ (on_state e' = true <-> 0 < b)
     /\ (b <= 255 <-> byte_val d1 <= 99)
     /\ scheduled_updates e' = S (scheduled_updates e)
     /\ sent e' = sent e)
  /\ (~ taken -> value_changed_dimmable msg e = Returned e).
Proof.
  intros Heep msg taken. subst msg taken.
  unfold value_changed_dimmable, data_at. rewrite Heep. simpl.
  pose proof (byte_val_range d1) as R1.
  split.
  - intros (-> & -> & H3). simpl. rewrite H3.
    destruct (byte_val d1 =? 0) eqn:E1; simpl.
    + apply Z.eqb_eq in E1. do 2 eexists. split; [reflexivity|]. simpl.
      split; [reflexivity|]. split; [reflexivity|].
      rewrite E1. simpl.
      repeat split; try discriminate; try lia.
      intros Hne. destruct Hne. apply byte_val_inj. now rewrite E1.
    + apply Z.eqb_neq in E1. do 2 eexists. split; [reflexivity|]. simpl.
      split; [reflexivity|]. split; [reflexivity|].
      assert (Hq : 2 <= byte_val d1 * 256 / 100)
        by (apply Z.div_le_lower_bound; lia).
      repeat split; try reflexivity; try lia.
      * intros _ ->. apply E1. reflexivity.
      * intros Hle.
        destruct (Z.le_gt_cases (byte_val d1) 99) as [H|H]; [exact H|].
        assert (256 <= byte_val d1 * 256 / 100)
          by (apply Z.div_le_lower_bound; lia). lia.
      * intros Hle.
        assert (byte_val d1 * 256 / 100 < 256)
          by (apply Z.div_lt_upper_bound; lia). lia.
  - intros Hnot.
    destruct (o =? 7) eqn:Eo; [|reflexivity]. apply Z.eqb_eq in Eo. simpl.
    destruct (byte_val d0 =? 2) eqn:E0; [|reflexivity].
    apply Z.eqb_eq in E0. simpl.
    destruct (byte_val d3 =? (if negb (byte_val d1 =? 0) then 9 else 8))
      eqn:E3; [|reflexivity].
    apply Z.eqb_eq in E3. destruct Hnot.
    split; [exact Eo|]. split; [now apply byte_val_inj|].
    rewrite E3. destruct (byte_val d1 =? 0); reflexivity.
Qed.

(** X20. A dimmer message too short for the bytes it is asked for raises
    [IndexError], and nothing is assigned: with organization 7 on a
    listening dimmable light, no data at all, or a first byte 2 followed by
    fewer than three more bytes. *)
Theorem value_changed_dimmable_short_data (msg : message) (e : entity A) :
  dev_eep e = "A5-38-08" ->
  org msg = 0x07 ->
  (data msg = []%list
   \/ exists rest, data msg = (x02 :: rest)%list /\ (List.length rest < 3)%nat) ->
  value_changed_dimmable msg e = Raised IndexError.
Proof.
  intros Heep Horg Hshort.
  unfold value_changed_dimmable, data_at. rewrite Heep, Horg. simpl.
  destruct Hshort as [-> | (rest & -> & Hlen)]; [reflexivity|].
  simpl. destruct rest as [|d1 [|d2 [|d3 rest]]]; simpl in *;
    try reflexivity; lia.
Qed.

Variable dim_value : Z -> Z.

(** X21. [turn_on] sends exactly one command and switches the state on, and the
    dim value in the command is never zero (a computed zero is sent as one);
    the command is the five header numbers, the characters of the sender id
    and a closing zero. Without a brightness among the arguments and with
    no brightness ever assigned, it raises [AttributeError] and changes
    nothing. *)
Theorem turn_on_cases (kw : option Z) (e : entity A) :
  (kw = None -> brightness e = None ->
   turn_on dim_value kw e = (Raised (AttributeError "_brightness"), e))
  /\ (forall b,
        (kw = Some b \/ (kw = None /\ brightness e = Some b)) ->
        exists e' bval,
          turn_on dim_value kw e = (Returned tt, e')
          /\ on_state e' = true
          /\ brightness e' = Some b
          /\ bval <> 0
          /\ (dim_value b <> 0 -> bval = dim_value b)
          /\ sent e'
             = (sent e
                ++ [{| cmd_data :=
                         [Int 0xA5; Int 0x02; Int bval; Int 0x01; Int 0x09]
                         ++ chars (sender_id e) ++ [Int 0x00];
                       cmd_optional := [];
                       cmd_packet_type := 0x01 |}])%list).
Proof.
  split.
  - intros -> Hb. unfold turn_on. now rewrite Hb.
  - intros b Hb.
    assert (Hrun : exists e1,
              e1 = match kw with
                   | Some b' => with_state e (on_state e) (Some b') (sent e)
                                  (scheduled_updates e)
                   | None => e
                   end
              /\ brightness e1 = Some b /\ sender_id e1 = sender_id e
              /\ sent e1 = sent e).
    { destruct Hb as [-> | [-> Hb]]; eexists; split; try reflexivity;
        simpl; auto. }
    destruct Hrun as (e1 & He1 & Hb1 & Hs1 & Hsent1).
    unfold turn_on. cbv zeta. rewrite <- He1.
    eexists. exists (if dim_value b =? 0 then 1 else dim_value b).
    rewrite Hb1.
    split; [reflexivity|]. simpl. rewrite Hs1, Hsent1.
    repeat split.
    + destruct (dim_value b =? 0) eqn:E; [lia | now apply Z.eqb_neq].
    + intros Hne. apply Z.eqb_neq in Hne. now rewrite Hne.
Qed.

End Methods.

Lemma setup_platform_supported_profiles_witness :
  setup_platform (fun s => Some s) (fun a => a) "eltako"
    (sample_config "M5-38-08") = Returned []%list.
Proof.
  apply (proj1 (proj2 (setup_platform_supported_profiles string
           (fun s => Some s) (fun a => a) "eltako" (sample_config "M5-38-08")
           "00-00-00-05" ltac:(simpl; tauto) eq_refl))).
  reflexivity.
Defined.

Lemma switchable_from_setup_ignores_messages_witness :
  value_changed {| org := 0x05; data := [x70]%list |}
    (sample_light EltakoSwitchableLight "AM-38-08")
  = Returned (sample_light EltakoSwitchableLight "AM-38-08").
Proof.
  apply (proj2 (switchable_from_setup_ignores_messages string
           (fun s => Some s) (fun a => a) "eltako" (sample_config "AM-38-08")
           [sample_light EltakoSwitchableLight "AM-38-08"]%list
           (sample_light EltakoSwitchableLight "AM-38-08")
           {| org := 0x05; data := [x70]%list |}
           eq_refl ltac:(left; reflexivity) eq_refl)).
Defined.

Lemma value_changed_switchable_cases_witness :
  exists e',
    value_changed_switchable {| org := 0x05; data := [x70]%list |}
      (sample_light EltakoSwitchableLight "M5-38-08") = Returned e'
    /\ on_state e' = true.
Proof.
  destruct (proj2 (proj2 (value_changed_switchable_cases
              {| org := 0x05; data := [x70]%list |}
              (sample_light EltakoSwitchableLight "M5-38-08") eq_refl))
              x70 []%list eq_refl eq_refl)
    as (e' & Hrun & _ & _ & _ & Hon & _).
  exists e'. split; [exact Hrun | now apply Hon].
Defined.

Lemma value_changed_dimmable_cases_witness :
  exists e',
    value_changed_dimmable {| org := 0x07; data := [x02; x64; x00; x09]%list |}
      (sample_light EltakoDimmableLight "A5-38-08") = Returned e'
    /\ brightness e' = Some 256.
Proof.
  destruct (proj1 (value_changed_dimmable_cases 0x07 x02 x64 x00 x09
              (sample_light EltakoDimmableLight "A5-38-08") eq_refl)
              ltac:(repeat split))
    as (e' & b & Hrun & Hb & -> & _).
  exists e'. split; [exact Hrun | exact Hb].
Defined.

Lemma value_changed_dimmable_short_data_witness :
  value_changed_dimmable {| org := 0x07; data := [x02; x64]%list |}
    (sample_light EltakoDimmableLight "A5-38-08") = Raised IndexError.
Proof.
  apply (value_changed_dimmable_short_data
           {| org := 0x07; data := [x02; x64]%list |}
           (sample_light EltakoDimmableLight "A5-38-08") eq_refl eq_refl).
  right. exists [x64]%list. split; [reflexivity | simpl; lia].
Defined.

Lemma turn_on_cases_witness :
  turn_on (fun b => b * 100 / 256) None
    (sample_light EltakoSwitchableLight "AM-38-08")
  = (Raised (AttributeError "_brightness"),
     sample_light EltakoSwitchableLight "AM-38-08").
Proof.
  apply (proj1 (turn_on_cases (fun b => b * 100 / 256) None
                  (sample_light EltakoSwitchableLight "AM-38-08")));
    reflexivity.
Defined.

End LightFacts.

(** * The gateway registry *)

Module GatewayFacts.

Import Gateway.

Lemma get_remove_other {V} (d : Dict.t V) k k' :
  k' <> k -> Dict.get k' (remove k d) = Dict.get k' d.
Proof.
  intros Hne. induction d as [|[k0 v0] d IH]; simpl; [reflexivity|].
  destruct (String.eqb k0 k) eqn:E; simpl.
  - apply String.eqb_eq in E. subst k0.
    destruct (String.eqb k k') eqn:E'; [|reflexivity].
    apply String.eqb_eq in E'. congruence.
  - now rewrite IH.
Qed.

Section Registry.

Variable V : Type.
Variable dev_name : V -> string.
Variable DATA_ELTAKO : string.
Variable NEW : string.
Variable OLD : string.

Local Abbreviation migrated := (migrated V NEW OLD).
Local Abbreviation writes := (writes V NEW OLD).
Local Abbreviation migrates_onto := (migrates_onto V NEW OLD).
Local Abbreviation store := (store V).
Local Abbreviation store_all := (store_all V).

Lemma migrate_key_writes (d m : Dict.t V) key :
  migrate_key V NEW OLD d m key
  = fold_left store (writes_of_key V NEW OLD d key) m.
Proof.
  unfold migrate_key, writes_of_key.
  destruct (Dict.get key d) as [v|]; [|reflexivity].
  destruct (contains NEW key), (contains OLD key); reflexivity.
Qed.

Lemma migration_dict_writes (d : Dict.t V) :
  migration_dict V NEW OLD d = fold_left store (writes d) []%list.
Proof.
  unfold migration_dict, Gateway.writes.
  generalize (@nil (string * V)) as m. generalize (map fst d) as keys.
  induction keys as [|key keys IH]; intros m; simpl; [reflexivity|].
  rewrite fold_left_app, IH, migrate_key_writes. reflexivity.
Qed.

Lemma get_fold_store k ws : forall m : Dict.t V,
  Dict.get k (fold_left store ws m) = last_write V k (Dict.get k m) ws.
Proof.
  unfold last_write.
  induction ws as [|[k' v'] ws IH]; intros m; simpl; [reflexivity|].
  rewrite IH. unfold store. simpl.
  destruct (String.eqb k' k) eqn:E.
  - apply String.eqb_eq in E. subst k'.
    now rewrite DictFacts.get_set_same.
  - rewrite DictFacts.get_set_other; [reflexivity|].
    intros ->. rewrite String.eqb_refl in E. discriminate.
Qed.

Lemma get_store_all_keys (m : Dict.t V) k keys : forall acc : Dict.t V,
  Dict.get k
    (fold_left (fun acc key =>
                  match Dict.get key m with
                  | Some v => Dict.set key v acc
                  | None => acc
                  end) keys acc)
  = if existsb (String.eqb k) keys
    then match Dict.get k m with
         | Some v => Some v
         | None => Dict.get k acc
         end
    else Dict.get k acc.
Proof.
  induction keys as [|key keys IH]; intros acc; simpl; [reflexivity|].
  rewrite IH.
  destruct (String.eqb k key) eqn:E.
  - apply String.eqb_eq in E. subst key. simpl.
    destruct (Dict.get k m) as [v|] eqn:Em.
    + rewrite DictFacts.get_set_same. destruct (existsb _ keys); reflexivity.
    + destruct (existsb _ keys); reflexivity.
  - simpl.
    assert (Hacc : Dict.get k (match Dict.get key m with
                               | Some v => Dict.set key v acc
                               | None => acc
                               end) = Dict.get k acc).
    { destruct (Dict.get key m); [|reflexivity].
      apply DictFacts.get_set_other. intros ->.
      rewrite String.eqb_refl in E. discriminate. }
    rewrite Hacc. reflexivity.
Qed.

Lemma get_store_all (m d : Dict.t V) k :
  Dict.get k (store_all m d)
  = match Dict.get k m with
    | Some v => Some v
    | None => Dict.get k d
    end.
Proof.
  unfold Gateway.store_all. rewrite get_store_all_keys.
  destruct (existsb (String.eqb k) (map fst m)) eqn:E; [reflexivity|].
  destruct (Dict.get k m) as [v|] eqn:Em; [|reflexivity].
  apply dict_get_key in Em.
  assert (existsb (String.eqb k) (map fst m) = true).
  { apply existsb_exists. exists k. split; [exact Em | apply String.eqb_refl]. }
  congruence.
Qed.

(** What a name is bound to after the migration: the value of the last
    write onto it, or else what it was bound to before. *)
Lemma get_migrated (d : Dict.t V) k :
  Dict.get k (migrated d)
  = match last_write V k None (writes d) with
    | Some v => Some v
    | None => Dict.get k d
    end.
Proof.
  unfold Gateway.migrated. rewrite get_store_all, migration_dict_writes.
  rewrite get_fold_store. reflexivity.
Qed.

Lemma last_write_untouched k ws : forall r,
  (forall v, ~ In (k, v) ws) -> last_write V k r ws = r.
Proof.
  unfold last_write.
  induction ws as [|[k' v'] ws IH]; intros r H; simpl; [reflexivity|].
  rewrite IH by (intros v Hin; apply (H v); now right).
  destruct (String.eqb k' k) eqn:E; [|reflexivity].
  apply String.eqb_eq in E. subst k'. destruct (H v'). now left.
Qed.

Lemma last_write_agreed k v ws : forall r,
  (forall v', In (k, v') ws -> v' = v) ->
  last_write V k r ws = r \/ last_write V k r ws = Some v.
Proof.
  unfold last_write.
  induction ws as [|[k' v'] ws IH]; intros r H; simpl; [now left|].
  destruct (String.eqb k' k) eqn:E.
  - apply String.eqb_eq in E. subst k'.
    assert (v' = v) by (apply H; now left). subst v'.
    destruct (IH (Some v)) as [-> | ->]; auto.
    intros v' Hin. apply H. now right.
  - apply IH. intros v'' Hin. apply H. now right.
Qed.

Lemma last_write_written k v ws : forall r,
  In (k, v) ws -> exists v', last_write V k r ws = Some v'.
Proof.
  unfold last_write.
  induction ws as [|[k' v'] ws IH]; intros r Hin; [destruct Hin|].
  simpl. destruct Hin as [Heq | Hin].
  - injection Heq as -> ->. rewrite String.eqb_refl.
    clear IH. generalize v. induction ws as [|[k1 v1] ws IH]; intros v0; simpl.
    + eauto.
    + destruct (String.eqb k1 k); apply IH.
  - now apply IH.
Qed.

Lemma last_write_source k v ws : forall r,
  last_write V k r ws = Some v -> r = Some v \/ In (k, v) ws.
Proof.
  unfold last_write.
  induction ws as [|[k' v'] ws IH]; intros r H; simpl in *; [now left|].
  destruct (IH _ H) as [Hr | Hin]; [|right; now right].
  destruct (String.eqb k' k) eqn:E; [|now left].
  apply String.eqb_eq in E. subst k'. injection Hr as ->. right. now left.
Qed.

Lemma in_writes (d : Dict.t V) k v :
  In (k, v) (writes d)
  <-> exists key, migrates_onto d key k /\ Dict.get key d = Some v.
Proof.
  unfold Gateway.writes, Gateway.migrates_onto, writes_of_key.
  rewrite in_flat_map. split.
  - intros (key & Hkey & Hin). exists key.
    destruct (Dict.get key d) as [v0|]; [|destruct Hin].
    split; [split; [exact Hkey|]|].
    + apply in_app_or in Hin.
      destruct (contains NEW key) eqn:En, (contains OLD key) eqn:Eo;
        destruct Hin as [Hin | Hin]; simpl in Hin;
        try contradiction; destruct Hin as [Hin | []];
        injection Hin as <- _; auto.
    + apply in_app_or in Hin.
      destruct (contains NEW key), (contains OLD key);
        destruct Hin as [Hin | Hin]; simpl in Hin;
        try contradiction; destruct Hin as [Hin | []];
        injection Hin as _ <-; reflexivity.
  - intros (key & (Hkey & Hcase) & Hget). exists key. split; [exact Hkey|].
    rewrite Hget. apply in_or_app.
    destruct Hcase as [[Hc <-] | [Hc <-]]; rewrite Hc; simpl; auto.
Qed.

Lemma get_migrated_untouched (d : Dict.t V) (k : string) :
  (forall key, ~ migrates_onto d key k) ->
  Dict.get k (migrated d) = Dict.get k d.
Proof.
  intros Hnone. rewrite get_migrated, last_write_untouched; [reflexivity|].
  intros v Hin. apply in_writes in Hin.
  destruct Hin as (key & Hm & _). exact (Hnone key Hm).
Qed.

(** X22. The migration removes nothing: every name of the registry is still
    bound afterwards, and a name that no key migrates onto is bound to what
    it was bound to before (or is still absent). *)
Theorem migrated_keeps_entries (d : Dict.t V) (k : string) :
  (forall v, Dict.get k d = Some v ->
             exists v', Dict.get k (migrated d) = Some v')
  /\ ((forall key, ~ migrates_onto d key k) ->
      Dict.get k (migrated d) = Dict.get k d).
Proof.
  rewrite get_migrated. split.
  - intros v Hv. destruct (last_write V k None (writes d)); eauto.
  - intros Hnone. rewrite last_write_untouched; [reflexivity|].
    intros v Hin. apply in_writes in Hin.
    destruct Hin as (key & Hm & _). exact (Hnone key Hm).
Qed.

(** X23. The migration provides both spellings: for every key of the registry
    that contains the new default name, the key with the old default name
    in its place is bound afterwards, and the other way round; what such a
    key is bound to is the value of some key that migrates onto it. *)
Theorem migrated_provides_both_names (d : Dict.t V) (key : string) (v : V) :
  Dict.get key d = Some v ->
  (contains NEW key = true ->
   exists v' key',
     Dict.get (replace NEW OLD key) (migrated d) = Some v'
     /\ migrates_onto d key' (replace NEW OLD key)
     /\ Dict.get key' d = Some v')
  /\ (contains OLD key = true ->
      exists v' key',
        Dict.get (replace OLD NEW key) (migrated d) = Some v'
        /\ migrates_onto d key' (replace OLD NEW key)
        /\ Dict.get key' d = Some v').
Proof.
  intros Hget.
  assert (Hkey : In key (map fst d)) by (eapply dict_get_key; eauto).
  assert (Hgen : forall k, migrates_onto d key k ->
            exists v' key',
              Dict.get k (migrated d) = Some v'
              /\ migrates_onto d key' k /\ Dict.get key' d = Some v').
  { intros k Hm. rewrite get_migrated.
    assert (Hin : In (k, v) (writes d)) by (apply in_writes; eauto).
    destruct (last_write_written k v (writes d) None Hin) as [v' Hv'].
    rewrite Hv'.
    assert (Hsrc : In (k, v') (writes d)).
    { destruct (last_write_source k v' (writes d) None Hv') as [H | H];
        [discriminate H | exact H]. }
    apply in_writes in Hsrc. destruct Hsrc as (key' & Hm' & Hget').
    eauto. }
  split; intros Hc; apply Hgen; split; auto.
Qed.

(** X24. The migration overwrites: when some key migrates onto a name and all
    keys that do so are bound to the same value, the name is bound to that
    value afterwards, whatever it was bound to before. *)
Theorem migrated_overwrites (d : Dict.t V) (k : string) (v : V) :
  (exists key, migrates_onto d key k /\ Dict.get key d = Some v) ->
  (forall key v', migrates_onto d key k -> Dict.get key d = Some v' -> v' = v) ->
  Dict.get k (migrated d) = Some v.
Proof.
  intros Hsome Hagree. rewrite get_migrated.
  assert (Hin : In (k, v) (writes d)) by now apply in_writes.
  destruct (last_write_written k v (writes d) None Hin) as [v' Hv'].
  rewrite Hv'. f_equal.
  destruct (last_write_source k v' (writes d) None Hv') as [H | H];
    [discriminate H|].
  apply in_writes in H. destruct H as (key & Hm & Hget).
  exact (Hagree key v' Hm Hget).
Qed.

Local Abbreviation get_gateway_from_hass :=
  (get_gateway_from_hass V DATA_ELTAKO NEW OLD).
Local Abbreviation set_gateway_to_hass :=
  (set_gateway_to_hass V dev_name DATA_ELTAKO NEW OLD).
Local Abbreviation async_unload_entry :=
  (async_unload_entry V dev_name DATA_ELTAKO NEW OLD).

(** X25. Storing a gateway and reading it back under its name: the gateway
    stored is the one returned, provided no key of the registry, as it is
    after the storing, migrates onto that name. Both calls fail with
    [KeyError] when the integration has no registry yet. *)
Theorem set_then_get_gateway (h : hass V) (g : V) :
  match h with
  | None =>
      set_gateway_to_hass h g = (Raised (KeyError DATA_ELTAKO), None)
      /\ forall description,
           get_gateway_from_hass h description
           = (Raised (KeyError DATA_ELTAKO), None)
  | Some d =>
      exists d1,
        set_gateway_to_hass h g = (Returned tt, Some d1)
        /\ Dict.get (dev_name g) d1 = Some g
        /\ ((forall key, ~ migrates_onto d1 key (dev_name g)) ->
            get_gateway_from_hass (Some d1) (dev_name g)
            = (Returned g, Some (migrated d1)))
  end.
Proof.
  destruct h as [d|]; [|split; reflexivity].
  exists (Dict.set (dev_name g) g (migrated d)).
  split; [reflexivity|]. split; [apply DictFacts.get_set_same|].
  intros Hnone.
  unfold Gateway.get_gateway_from_hass, migrate_old_gateway_descriptions.
  rewrite (get_migrated_untouched _ (dev_name g) Hnone).
  now rewrite DictFacts.get_set_same.
Qed.

(** X26. Unloading an entry: the description is looked up in the migrated
    registry and [KeyError] is raised, with no gateway unloaded, when it is
    not bound there. Otherwise the gateway found is unloaded and only the
    entry under its own name is deleted: every other name, the description
    included when it differs from the gateway's name, stays bound as the
    migration left it. *)
Theorem async_unload_entry_cases (d : Dict.t V) (description : string) :
  match Dict.get description (migrated d) with
  | None =>
      async_unload_entry (Some d) description
      = (Raised (KeyError description), Some (migrated d), []%list)
  | Some g =>
      (Dict.mem (dev_name g) (migrated d) = true ->
       exists d',
         async_unload_entry (Some d) description
         = (Returned true, Some d', [g]%list)
         /\ (forall k, k <> dev_name g ->
                       Dict.get k d' = Dict.get k (migrated d)))
      /\ (Dict.mem (dev_name g) (migrated d) = false ->
          async_unload_entry (Some d) description
          = (Raised (KeyError (dev_name g)), Some (migrated d), [g]%list))
  end.
Proof.
  unfold Gateway.async_unload_entry, Gateway.get_gateway_from_hass,
    migrate_old_gateway_descriptions.
  destruct (Dict.get description (migrated d)) as [g|]; [|reflexivity].
  split; intros Hmem; rewrite Hmem; [|reflexivity].
  eexists. split; [reflexivity|].
  intros k Hne. now apply get_remove_other.
Qed.

End Registry.

Lemma migrated_keeps_entries_witness :
  Dict.get "config"
    (migrated nat "Gateway" "ESP2 Gateway"
       [("Gateway (1)", 1%nat); ("config", 7%nat)]%list) = Some 7%nat.
Proof.
  rewrite (proj2 (migrated_keeps_entries nat "Gateway" "ESP2 Gateway"
                    [("Gateway (1)", 1%nat); ("config", 7%nat)]%list
                    "config")); [reflexivity|].
  intros key [Hkey [[Hc H] | [Hc H]]]; simpl in Hkey;
    destruct Hkey as [<- | [<- | []]]; vm_compute in Hc, H;
    first [discriminate Hc | discriminate H].
Defined.

Lemma migrated_provides_both_names_witness :
  exists v',
    Dict.get "ESP2 Gateway (1)"
      (migrated nat "Gateway" "ESP2 Gateway"
         [("Gateway (1)", 1%nat); ("config", 7%nat)]%list) = Some v'.
Proof.
  destruct (proj1 (migrated_provides_both_names nat "Gateway" "ESP2 Gateway"
                     [("Gateway (1)", 1%nat); ("config", 7%nat)]%list
                     "Gateway (1)" 1%nat eq_refl) eq_refl)
    as (v' & key' & H & _).
  exists v'. exact H.
Defined.

Lemma migrated_overwrites_witness :
  Dict.get "Gateway (1)"
    (migrated nat "Gateway" "Old Bridge"
       [("Gateway (1)", 1%nat); ("Old Bridge (1)", 2%nat)]%list) = Some 2%nat.
Proof.
  apply (migrated_overwrites nat "Gateway" "Old Bridge"
           [("Gateway (1)", 1%nat); ("Old Bridge (1)", 2%nat)]%list
           "Gateway (1)" 2%nat).
  - exists "Old Bridge (1)". split; [|reflexivity].
    split; [simpl; tauto|]. right. split; reflexivity.
  - intros key v' [Hkey Hcase] Hget. simpl in Hkey.
    destruct Hkey as [<- | [<- | []]].
    + destruct Hcase as [[_ H] | [H _]]; vm_compute in H; discriminate H.
    + vm_compute in Hget. now injection Hget as <-.
Defined.

Lemma set_then_get_gateway_witness :
  get_gateway_from_hass nat "eltako" "Gateway" "Old Bridge"
    (snd (set_gateway_to_hass nat (fun g => "Gateway (1)") "eltako"
            "Gateway" "Old Bridge" (Some []%list) 5%nat))
    "Gateway (1)"
  = (Returned 5%nat,
     Some [("Gateway (1)", 5%nat); ("Old Bridge (1)", 5%nat)]%list).
Proof.
  destruct (set_then_get_gateway nat (fun g => "Gateway (1)") "eltako"
              "Gateway" "Old Bridge" (Some []%list) 5%nat)
    as (d1 & Hset & _ & Hget).
  rewrite Hset. simpl. injection Hset as <-.
  rewrite Hget; [reflexivity|].
  intros key [Hkey [[_ H] | [H _]]]; simpl in Hkey;
    destruct Hkey as [<- | []]; vm_compute in H; discriminate H.
Defined.

Lemma async_unload_entry_cases_witness :
  async_unload_entry nat (fun g => "Gateway (1)") "eltako" "Gateway"
    "Old Bridge" (Some [("Old Bridge (1)", 5%nat)]%list) "Gateway (1)"
  = (Returned true, Some [("Old Bridge (1)", 5%nat)]%list, [5%nat]%list).
Proof.
  pose proof (async_unload_entry_cases nat (fun g => "Gateway (1)") "eltako"
                "Gateway" "Old Bridge" [("Old Bridge (1)", 5%nat)]%list
                "Gateway (1)") as H.
  vm_compute in H. destruct H as [H _].
  destruct (H eq_refl) as (d' & Hrun & _).
  vm_compute. reflexivity.
Defined.

End GatewayFacts.
